(** * yeoman-helpers: option/prompt hybrids and JSON merge helpers

    A shallow embedding of
      - [lib/generator.js]      (class [Generator]: [extendJson],
                                 [extendPackage], [addScripts], [sortScripts],
                                 [optionPrompt], [prompting]),
      - the prompt-type table   ([module.exports = {confirm, input}]),
      - the option-prompt class ([OptionPrompt]: [isAllowed], [isMissing],
                                 [optionType], [question], [prompt],
                                 [validate], [resolve]),
      - the older stand-alone generator, whose [addScripts] picks its
        customizer the other way round,
    together with the parts of the environment those functions call:
    lodash's [mergeWith] / [assign], the in-memory file store's [readJSON] /
    [writeJSON], the interactive [prompt] of the host and its [env.error].

    Conventions of the embedding.
      - A JavaScript value is JSON data or [undefined]: [value := option json].
      - A plain object is the list of its own properties in the order the
        engine enumerates them (array-index names first, ascending; then the
        other names in creation order).  [set_prop] is the assignment
        [o[k] = v] on that representation, [delete_prop] is [delete o[k]].
      - A JSON file is kept as the tree that [JSON.parse] reads from it and
        the indentation unit that [JSON.stringify] was given when it was
        written.
      - Every method is a program over the generator object: it takes the
        object, and yields an [outcome] and the object as it is afterwards
        (a thrown error leaves the heap as it was at the throw). *)

From Stdlib Require Import ZArith Ascii String List Bool Lia.
From stdpp Require Import base option list strings gmap pretty.

(** ** Outcomes and programs *)

Inductive error : Type :=
  | TypeError (msg : string)      (* raised by the engine *)
  | Error (msg : string)          (* [throw new Error(msg)] *)
  | EnvError (msg : string).      (* [env.error(msg)]: the run ends *)

(** [Unmodelled] marks the few library branches that this development does
    not describe (they are listed where they arise); nothing is proved
    about a run that reaches one. *)
Inductive outcome (A : Type) : Type :=
  | Returns (a : A)
  | Throws (e : error)
  | Unmodelled.
Arguments Returns {A} a.
Arguments Throws {A} e.
Arguments Unmodelled {A}.

Definition obind {A B} (m : outcome A) (k : A -> outcome B) : outcome B :=
  match m with
  | Returns a => k a
  | Throws e => Throws e
  | Unmodelled => Unmodelled
  end.

Definition omap {A B} (f : A -> B) (m : outcome A) : outcome B :=
  obind m (fun a => Returns (f a)).

Global Instance outcome_ret : MRet outcome := @Returns.
Global Instance outcome_bind : MBind outcome := fun A B k m => obind m k.
Global Instance outcome_fmap : FMap outcome := fun A B f m => omap f m.

(** ** JSON trees *)

(** Numbers are carried as integers.  A number is looked into in three
    places only: the truth test, the template literal, and lodash's test
    for a [length]. *)

Unset Elimination Schemes.
Inductive json : Type :=
  | JNull
  | JBool (b : bool)
  | JNum (n : Z)
  | JStr (s : string)
  | JArr (elems : list json)
  | JObj (props : list (string * json)).
Set Elimination Schemes.

Definition value : Type := option json.
Abbreviation undefined := (@None json).

Section json_induction.
Variable P : json -> Prop.
Hypothesis Hnull : P JNull.
Hypothesis Hbool : forall b, P (JBool b).
Hypothesis Hnum : forall n, P (JNum n).
Hypothesis Hstr : forall s, P (JStr s).
Hypothesis Harr : forall l, Forall P l -> P (JArr l).
Hypothesis Hobj : forall o, Forall (fun kv => P (snd kv)) o -> P (JObj o).

Fixpoint json_tree_ind (j : json) : P j :=
  match j with
  | JNull => Hnull
  | JBool b => Hbool b
  | JNum n => Hnum n
  | JStr s => Hstr s
  | JArr l =>
      Harr l ((fix go (l : list json) : Forall P l :=
                 match l with
                 | [] => List.Forall_nil P
                 | x :: l' => @List.Forall_cons _ P x l' (json_tree_ind x) (go l')
                 end) l)
  | JObj o =>
      Hobj o ((fix go (o : list (string * json))
                 : Forall (fun kv => P (snd kv)) o :=
                 match o with
                 | [] => List.Forall_nil _
                 | kv :: o' =>
                     @List.Forall_cons _ (fun kv => P (snd kv)) kv o'
                       (json_tree_ind (snd kv)) (go o')
                 end) o)
  end.
End json_induction.

(** ** Own properties in enumeration order *)

Module Props.

(** [array_index k] is [Some i] when [k] is the canonical decimal spelling
    of an integer [0 <= i < 2^32 - 1]: the names the engine treats as
    array indices. *)
Definition digit (a : ascii) : option N :=
  let n := N_of_ascii a in
  if ((48 <=? n) && (n <=? 57))%N then Some (n - 48)%N else None.

Fixpoint digits (s : string) (acc : N) : option N :=
  match s with
  | EmptyString => Some acc
  | String a s' =>
      match digit a with
      | Some d => digits s' (10 * acc + d)%N
      | None => None
      end
  end.

Definition array_index (k : string) : option N :=
  match k with
  | EmptyString => None
  | String a EmptyString => digit a
  | String a _ =>
      if Ascii.eqb a "0"%char then None
      else match digits k 0%N with
           | Some n => if (n <? 2 ^ 32 - 1)%N then Some n else None
           | None => None
           end
  end.

Definition is_index (k : string) : bool :=
  match array_index k with Some _ => true | None => false end.

Section props.
Context {A : Type}.
Implicit Types (o : list (string * A)) (k : string) (v : A).

(** [o[k]] (own properties only). *)
Fixpoint get_prop k o : option A :=
  match o with
  | [] => None
  | (k', v') :: o' => if String.eqb k k' then Some v' else get_prop k o'
  end.

(** [k in o], own properties only. *)
Definition has_prop k o : bool :=
  match get_prop k o with Some _ => true | None => false end.

Definition keys o : list string := map fst o.

(** Overwriting an existing property keeps its place. *)
Fixpoint replace_prop k v o : list (string * A) :=
  match o with
  | [] => []
  | (k', v') :: o' =>
      if String.eqb k k' then (k, v) :: o'
      else (k', v') :: replace_prop k v o'
  end.

(** A new array-index name goes among the index names, in numeric
    order. *)
Fixpoint insert_index (i : N) k v o : list (string * A) :=
  match o with
  | [] => [(k, v)]
  | (k', v') :: o' =>
      match array_index k' with
      | Some j =>
          if (j <? i)%N then (k', v') :: insert_index i k v o'
          else (k, v) :: o
      | None => (k, v) :: o
      end
  end.

(** [o[k] = v]. *)
Definition set_prop k v o : list (string * A) :=
  if has_prop k o then replace_prop k v o
  else match array_index k with
       | Some i => insert_index i k v o
       | None => o ++ [(k, v)]
       end.

(** [delete o[k]]. *)
Definition delete_prop k o : list (string * A) :=
  List.filter (fun kv => negb (String.eqb k (fst kv))) o.

(** lodash [assign(object, source)]: the own properties of [source]
    are assigned onto [object] one after the other. *)
Definition assign o (source : list (string * A)) : list (string * A) :=
  fold_left (fun acc kv => set_prop (fst kv) (snd kv) acc) source o.

(** The array-index names come first and ascend. *)
Fixpoint ordered_from (lo : option N) o : bool :=
  match o with
  | [] => true
  | (k, _) :: o' =>
      match array_index k with
      | Some i =>
          match lo with
          | Some j => (j <? i)%N && ordered_from (Some i) o'
          | None => ordered_from (Some i) o'
          end
      | None => forallb (fun kv => negb (is_index (fst kv))) o'
      end
  end.

Fixpoint distinct (ks : list string) : bool :=
  match ks with
  | [] => true
  | k :: ks' => negb (existsb (String.eqb k) ks') && distinct ks'
  end.

(** [__proto__] is no ordinary name: reading and writing it goes
    through an accessor of the prototype, and lodash steps around it.
    Objects with an own property of that name are left out. *)
Definition ordinary k : bool := negb (String.eqb k "__proto__").

(** The list is the property list of an object: no name twice, the names
    in the order of the engine, every name ordinary. *)
Definition wf_props o : bool :=
  distinct (keys o) && ordered_from None o && forallb ordinary (keys o).
End props.

End Props.
Import Props.

(** The tree is one a JSON file can hold: every object in it is a property
    list in the sense of [wf_props]. *)
Fixpoint wf_json (j : json) : bool :=
  match j with
  | JArr l => forallb wf_json l
  | JObj o => wf_props o && forallb (fun kv => wf_json (snd kv)) o
  | _ => true
  end.

(** ** lodash: [mergeWith] on JSON trees *)

Module Lodash.

(** A customizer sees the existing value ([undefined] when the target has
    no such property) and the incoming one; [None] is its [undefined],
    which defers to the default merge.  (lodash hands a customizer the key
    and the two parents as well; the customizers of this package look at
    the two values only.) *)
Definition customizer : Type := value -> json -> value.

Definition isArrayLike (o : list (string * json)) : bool :=
  match get_prop "length" o with
  | Some (JNum n) => (0 <=? n)%Z && (n <=? 2 ^ 53 - 1)%Z
  | _ => false
  end.

(** The array an incoming array is merged into: the existing array itself,
    or a fresh [[]] when the existing value is no array.  An existing
    plain object that looks like an array (a numeric [length]) would be
    copied element by element: not described here. *)
Definition array_target (objValue : value) : outcome (list json) :=
  match objValue with
  | Some (JArr a) => Returns a
  | Some (JObj o) => if isArrayLike o then Unmodelled else Returns []
  | _ => Returns []
  end.

(** The object an incoming plain object is merged into: the existing
    object itself, or a fresh [{}] when the existing value is no object.
    An existing array would receive the properties on the array object
    itself: not described here. *)
Definition object_target (objValue : value)
  : outcome (list (string * json)) :=
  match objValue with
  | Some (JObj o) => Returns o
  | Some (JArr _) => Unmodelled
  | _ => Returns []
  end.

(** [mergeValue c srcValue objValue] is the value that [baseMerge] assigns
    to a key whose incoming value is [srcValue] and whose existing value
    is [objValue]:
      - a scalar [srcValue]: the customizer's answer, else [srcValue];
      - an array or object [srcValue] ([baseMergeDeep]): the customizer's
        answer, else the recursive merge of [srcValue] into the target
        chosen above, element by element or property by property. *)
Fixpoint mergeValue (c : customizer) (srcValue : json) (objValue : value)
  {struct srcValue} : outcome json :=
  match srcValue with
  | JArr l =>
      match c objValue srcValue with
      | Some newValue => Returns newValue
      | None =>
          base ← array_target objValue;
          JArr <$>
            (fix elems (l : list json) (base : list json) {struct l}
               : outcome (list json) :=
               match l with
               | [] => Returns base
               | s :: l' =>
                   v ← mergeValue c s (head base);
                   r ← elems l' (tail base);
                   Returns (v :: r)
               end) l base
      end
  | JObj o =>
      match c objValue srcValue with
      | Some newValue => Returns newValue
      | None =>
          base ← object_target objValue;
          JObj <$>
            (fix props (o : list (string * json))
                 (base : list (string * json)) {struct o}
               : outcome (list (string * json)) :=
               match o with
               | [] => Returns base
               | kv :: o' =>
                   v ← mergeValue c (snd kv) (get_prop (fst kv) base);
                   props o' (set_prop (fst kv) v base)
               end) o base
      end
  | _ =>
      Returns (match c objValue srcValue with
               | Some newValue => newValue
               | None => srcValue
               end)
  end.

(** [baseMerge] with an array source: index [i] of the source is merged
    into index [i] of the target; the target keeps its further elements. *)
Definition mergeElems (c : customizer)
  : list json -> list json -> outcome (list json) :=
  fix elems (l base : list json) {struct l} : outcome (list json) :=
    match l with
    | [] => Returns base
    | s :: l' =>
        v ← mergeValue c s (head base);
        r ← elems l' (tail base);
        Returns (v :: r)
    end.

(** [baseMerge] with a plain-object source: its properties are merged into
    the target one after the other. *)
Definition baseMerge (c : customizer)
  : list (string * json) -> list (string * json)
    -> outcome (list (string * json)) :=
  fix props (source object : list (string * json)) {struct source}
    : outcome (list (string * json)) :=
    match source with
    | [] => Returns object
    | kv :: source' =>
        v ← mergeValue c (snd kv) (get_prop (fst kv) object);
        props source' (set_prop (fst kv) v object)
    end.

(** [mergeWith(object, source, customizer)] for plain objects. *)
Definition mergeWith (object source : list (string * json))
  (c : customizer) : outcome (list (string * json)) :=
  baseMerge c source object.

End Lodash.
Import Lodash.

(** ** JavaScript values in conditions and template literals *)

(** [if (v)], [!v]. *)
Definition truthy (v : value) : bool :=
  match v with
  | None => false
  | Some JNull => false
  | Some (JBool b) => b
  | Some (JNum n) => negb (n =? 0)%Z
  | Some (JStr s) => negb (String.eqb s "")
  | Some (JArr _) | Some (JObj _) => true
  end.

(** lodash [isString]. *)
Definition isString (v : value) : bool :=
  match v with Some (JStr _) => true | _ => false end.

Fixpoint join (sep : string) (l : list string) : string :=
  match l with
  | [] => ""
  | [s] => s
  | s :: l' => s +:+ sep +:+ join sep l'
  end.

(** The text a template literal [`${v}`] inserts for JSON data. *)
Fixpoint jsonToString (j : json) : string :=
  match j with
  | JNull => "null"
  | JBool true => "true"
  | JBool false => "false"
  | JNum n => pretty n
  | JStr s => s
  | JArr l =>
      join "," (map (fun e => match e with
                              | JNull => ""
                              | _ => jsonToString e
                              end) l)
  | JObj _ => "[object Object]"
  end.

Definition toString (v : value) : string :=
  match v with
  | None => "undefined"
  | Some j => jsonToString j
  end.

(** ** The generator object *)

(** What the user and the host get to see, in order. *)
Inductive event : Type :=
  | Prompted (name : string)                   (* a question was put *)
  | Validated (name : string) (input : value). (* a validator was called *)

(** [config.default]: a plain value, or a supplier called without
    arguments. *)
Inductive default_spec : Type :=
  | DefaultValue (v : value)
  | DefaultSupplier (f : unit -> value).

(** The configuration record handed to [Generator#optionPrompt].  A field
    that must be a function to count ([validate], [allowed]) is [None] when
    it is absent or no function; a validator or predicate is taken with
    the value it finally yields (after any [await]). *)
Module Config.
Record t : Type := {
  name : string;
  type : string;
  alias : value;
  description : value;
  message : value;
  def : default_spec;
  validate : option (value -> value);
  allowed : option (gmap string value -> value);
  whenProhibited : value;
}.
End Config.

(** The question record handed to the host's [prompt]. *)
Module Question.
Record t : Type := {
  default : unit -> value;
  when : unit -> bool;
  message : value;
  name : string;
  type : string;
  validate : option (value -> value);
}.
End Question.

(** A JSON file of the in-memory store: the tree its text parses to, and
    the indentation unit the text was printed with. *)
Record json_file : Type := {
  tree : json;
  indent : string;
}.

Record generator : Type := {
  options : gmap string value;
  _optionPrompts : list Config.t;
  fs : gmap string json_file;
  trace : list event;
}.

Definition set_options (f : gmap string value -> gmap string value)
  (g : generator) : generator :=
  {| options := f (options g); _optionPrompts := _optionPrompts g;
     fs := fs g; trace := trace g |}.

Definition set_fs (f : gmap string json_file -> gmap string json_file)
  (g : generator) : generator :=
  {| options := options g; _optionPrompts := _optionPrompts g;
     fs := f (fs g); trace := trace g |}.

Definition log (e : event) (g : generator) : generator :=
  {| options := options g; _optionPrompts := _optionPrompts g;
     fs := fs g; trace := trace g ++ [e] |}.

Definition register (cfg : Config.t) (g : generator) : generator :=
  {| options := options g; _optionPrompts := _optionPrompts g ++ [cfg];
     fs := fs g; trace := trace g |}.

(** A method: run on the object, it yields an outcome and the object as it
    is afterwards. *)
Definition method (A : Type) : Type := generator -> outcome A * generator.

Definition andThen {A B} (m : method A) (k : A -> method B) : method B :=
  fun g =>
    match m g with
    | (Returns a, g') => k a g'
    | (Throws e, g') => (Throws e, g')
    | (Unmodelled, g') => (Unmodelled, g')
    end.

Definition done_ {A} (a : A) : method A := fun g => (Returns a, g).
Definition throw {A} (e : error) : method A := fun g => (Throws e, g).
Definition lift {A} (m : outcome A) : method A := fun g => (m, g).
Definition update (f : generator -> generator) : method unit :=
  fun g => (Returns tt, f g).
Definition this : method generator := fun g => (Returns g, g).

Global Instance method_ret : MRet method := @done_.
Global Instance method_bind : MBind method := fun A B k m => andThen m k.

(** [options[name]] *)
Definition option_value (g : generator) (name : string) : value :=
  default None (options g !! name).

(** ** The in-memory file store *)

Module MemFs.
(** [fs.readJSON(path, defaults)] *)
Definition readJSON (store : gmap string json_file) (path : string)
  (defaults : json) : json :=
  match store !! path with
  | Some f => tree f
  | None => defaults
  end.

(** [fs.writeJSON(path, contents, null, space)] *)
Definition writeJSON (path : string) (contents : json) (space : string)
  (store : gmap string json_file) : gmap string json_file :=
  <[path := {| tree := contents; indent := space |}]> store.
End MemFs.

(** ** The prompt-type table *)

(** The values of the table: the two constructors it lists, and whatever a
    lookup on the object literal finds further up, on [Object.prototype]. *)
Inductive option_type : Type :=
  | BooleanType
  | StringType
  | ObjectPrototypeMember (name : string).

Module PromptTypeMap.
(** [module.exports = { confirm: Boolean, input: String }] *)
Definition exports : list (string * option_type) :=
  [("confirm", BooleanType); ("input", StringType)].

(** The members every object literal inherits. *)
Definition Object_prototype : list string :=
  ["constructor"; "__defineGetter__"; "__defineSetter__"; "hasOwnProperty";
   "__lookupGetter__"; "__lookupSetter__"; "isPrototypeOf";
   "propertyIsEnumerable"; "toString"; "valueOf"; "__proto__";
   "toLocaleString"].

(** [typeMap[type]]: own properties first, then the prototype. *)
Definition lookup (type : string) : option option_type :=
  match get_prop type exports with
  | Some t => Some t
  | None =>
      if existsb (String.eqb type) Object_prototype
      then Some (ObjectPrototypeMember type)
      else None
  end.
End PromptTypeMap.

(** ** class OptionPrompt *)

Module OptionPrompt.

(** [get isAllowed] *)
Definition isAllowed (config : Config.t) (g : generator) : bool :=
  match Config.allowed config with
  | None => true
  | Some allowed => truthy (allowed (options g))
  end.


(** [get optionType] *)
Definition optionType (config : Config.t) : outcome option_type :=
  let type := Config.type config in
  match PromptTypeMap.lookup type with
  | None => Throws (Error ("Unsupported prompt type '" +:+ type +:+ "'"))
  | Some optionType => Returns optionType
  end.

(** [get optionConfig] *)
Record option_config : Type := {
  oc_type : option_type;
  oc_description : value;
  oc_alias : value;
}.

Definition optionConfig (config : Config.t) : outcome option_config :=
  t ← optionType config;
  Returns {| oc_type := t;
             oc_description := Config.description config;
             oc_alias := Config.alias config |}.

(** [get question] *)
Definition question (config : Config.t) (g : generator) : Question.t :=
  let name := Config.name config in
  {| Question.default := fun _ =>
       match Config.def config with
       | DefaultSupplier def => def tt
       | DefaultValue def => def
       end;
     Question.when := fun _ =>
       match option_value g name with None => true | Some _ => false end;
     Question.message := Config.message config;
     Question.name := name;
     Question.type := Config.type config;
     Question.validate := Config.validate config |}.

Section interactive.
(** The user at the terminal: the answer finally entered to a question
    that is put. *)
Context (ask : Question.t -> value).

(** The host's [generator.prompt(questions)]: a question whose [when]
    says no is passed over; the others are put, in order, and the
    answers collected under the questions' names. *)
Fixpoint generator_prompt (questions : list Question.t)
  : method (list (string * value)) :=
  match questions with
  | [] => mret []
  | q :: questions' =>
      if Question.when q tt then
        update (log (Prompted (Question.name q)));;
        answers ← generator_prompt questions';
        mret ((Question.name q, ask q) :: answers)
      else generator_prompt questions'
  end.

(** lodash [assign(options, answers)] on the options bag. *)
Definition assign_options (answers : list (string * value))
  (bag : gmap string value) : gmap string value :=
  fold_left (fun acc kv => <[fst kv := snd kv]> acc) answers bag.

(** [async prompt()] *)
Definition prompt (config : Config.t) : method unit :=
  g ← this;
  if isAllowed config g then
    answers ← generator_prompt [question config g];
    update (set_options (assign_options answers))
  else
    let name := Config.name config in
    let whenProhibited := Config.whenProhibited config in
    update (set_options <[name := whenProhibited]>).

(** [async validate()].  [env.error(msg)] is the host's way out: it
    raises [msg] as the error of the run. *)
Definition validate (config : Config.t) : method unit :=
  let name := Config.name config in
  match Config.validate config with
  | Some validate =>
      g ← this;
      let input := option_value g name in
      update (log (Validated name input));;
      let result := validate input in
      let result :=
        if negb (truthy result)
        then Some (JStr ("Invalid " +:+ name +:+ " option '"
                         +:+ toString input +:+ "'"))
        else result in
      match result with
      | Some (JStr msg) => throw (EnvError msg)
      | _ => mret tt
      end
  | None => mret tt
  end.

(** [async resolve()] *)
Definition resolve (config : Config.t) : method unit :=
  prompt config;;
  validate config.
End interactive.

End OptionPrompt.

Definition tab : string := String "009"%char "".

(** ** class Generator (lib/generator.js) *)

Module Generator.

(** Customizers, at the foot of the file. *)
Definition concatArrays : customizer := fun obj src =>
  match obj, src with
  | Some (JArr a), JArr b => Some (JArr (a ++ b))
  | _, _ => None
  end.

Definition appendScripts : customizer := fun obj src =>
  match obj, src with
  | Some (JStr a), JStr b => Some (JStr (a +:+ " && " +:+ b))
  | _, _ => None
  end.

Definition prependScripts : customizer := fun obj src =>
  match obj, src with
  | Some (JStr a), JStr b => Some (JStr (b +:+ " && " +:+ a))
  | _, _ => None
  end.

Section methods.
(** [this.destinationPath(p)]: the host resolves a relative path
    against the destination root. *)
Context (destinationPath : string -> string).
Context (ask : Question.t -> value).

(** [optionPrompt(config)]: the flag is registered with the host under
    [optionPrompt.optionConfig] (reading it may throw), then the
    descriptor is pushed.  The host's own registry of flags is not kept. *)
Definition optionPrompt (config : Config.t) : method unit :=
  _ ← lift (OptionPrompt.optionConfig config);
  update (register config).

(** [async prompting()] *)
Fixpoint prompting_loop (optionPrompts : list Config.t) : method unit :=
  match optionPrompts with
  | [] => mret tt
  | optionPrompt :: rest =>
      OptionPrompt.resolve ask optionPrompt;;
      prompting_loop rest
  end.

Definition prompting : method unit :=
  g ← this;
  prompting_loop (_optionPrompts g).

(** [extendJson(destinationPath, contents, customizer = concatArrays)].
    A stored file whose top level is no plain object is not described. *)
Definition extendJson (path : string) (contents : list (string * json))
  (customizer : option customizer) : method unit :=
  let customizer := default concatArrays customizer in
  let filePath := destinationPath path in
  g ← this;
  match MemFs.readJSON (fs g) filePath (JObj []) with
  | JObj obj =>
      obj ← lift (mergeWith obj contents customizer);
      update (set_fs (MemFs.writeJSON filePath (JObj obj) tab))
  | _ => lift Unmodelled
  end.

(** [extendTsConfig(contents, customizer = concatArrays)] *)
Definition extendTsConfig (contents : list (string * json))
  (customizer : option Lodash.customizer) : method unit :=
  extendJson "tsconfig.json" contents
    (Some (default concatArrays customizer)).

(** [extendPackage(contents, customizer = concatArrays)] *)
Definition extendPackage (contents : list (string * json))
  (customizer : option Lodash.customizer) : method unit :=
  extendJson "package.json" contents
    (Some (default concatArrays customizer)).

(** [addScripts(scripts, prepend = false)] *)
Definition addScripts (scripts : list (string * json)) (prepend : value)
  : method unit :=
  let prepend := default (JBool false) prepend in
  extendPackage [("scripts", JObj scripts)]
    (Some (if truthy (Some prepend) then prependScripts
           else appendScripts)).

(** One turn of the loop of [sortScripts]. *)
Definition sort_step (acc : list (string * json) * list (string * json))
  (name : string) : list (string * json) * list (string * json) :=
  let '(sorted, scripts) := acc in
  match get_prop name scripts with
  | Some script =>
      (set_prop name script sorted, delete_prop name scripts)
  | None => acc
  end.

(** [sortScripts(names)].  The membership test [name in scripts] throws
    unless [scripts] is an object.  Not described: a manifest whose
    top level is no plain object and is not [null], a [scripts] array,
    and a scalar [scripts] with no names given. *)
Definition sortScripts (names : list string) : method unit :=
  let pkgPath := destinationPath "package.json" in
  g ← this;
  match MemFs.readJSON (fs g) pkgPath (JObj []) with
  | JObj pkg =>
      let finish sorted scripts :=
        let pkg := set_prop "scripts" (JObj (assign sorted scripts)) pkg in
        update (set_fs (MemFs.writeJSON pkgPath (JObj pkg) tab)) in
      match get_prop "scripts" pkg, names with
      | Some (JObj scripts), _ =>
          let '(sorted, scripts) := fold_left sort_step names ([], scripts) in
          finish sorted scripts
      | Some (JArr _), _ => lift Unmodelled
      | (None | Some JNull), [] => finish [] []
      | Some _, [] => lift Unmodelled
      | scripts, name :: _ =>
          throw (TypeError ("Cannot use 'in' operator to search for '"
                            +:+ name +:+ "' in " +:+ toString scripts))
      end
  | JNull =>
      throw (TypeError "Cannot destructure property 'scripts' of 'pkg' as it is null.")
  | _ =>
      match names with
      | [] => lift Unmodelled
      | name :: _ =>
          throw (TypeError ("Cannot use 'in' operator to search for '"
                            +:+ name +:+ "' in undefined"))
      end
  end.
End methods.

End Generator.

(** ** class Generator of the older stand-alone file *)

Module StandaloneGenerator.

Definition concatArrays : customizer := fun obj src =>
  match obj, src with
  | Some (JArr a), JArr b => Some (JArr (a ++ b))
  | _, _ => None
  end.

Definition appendScripts : customizer := fun obj src =>
  match obj, src with
  | Some (JStr a), JStr b => Some (JStr (a +:+ " && " +:+ b))
  | _, _ => None
  end.

Definition prependScripts : customizer := fun obj src =>
  match obj, src with
  | Some (JStr a), JStr b => Some (JStr (b +:+ " && " +:+ a))
  | _, _ => None
  end.

Section methods.
Context (destinationPath : string -> string).

Definition extendJson (path : string) (contents : list (string * json))
  (customizer : option customizer) : method unit :=
  let customizer := default concatArrays customizer in
  let filePath := destinationPath path in
  g ← this;
  match MemFs.readJSON (fs g) filePath (JObj []) with
  | JObj obj =>
      obj ← lift (mergeWith obj contents customizer);
      update (set_fs (MemFs.writeJSON filePath (JObj obj) tab))
  | _ => lift Unmodelled
  end.

Definition extendTsConfig (contents : list (string * json))
  (customizer : option Lodash.customizer) : method unit :=
  extendJson "tsconfig.json" contents
    (Some (default concatArrays customizer)).

Definition extendPackage (contents : list (string * json))
  (customizer : option Lodash.customizer) : method unit :=
  extendJson "package.json" contents
    (Some (default concatArrays customizer)).

(** [addScripts(scripts, prepend = false)]:
    [prepend ? appendScripts : prependScripts]. *)
Definition addScripts (scripts : list (string * json)) (prepend : value)
  : method unit :=
  let prepend := default (JBool false) prepend in
  extendPackage [("scripts", JObj scripts)]
    (Some (if truthy (Some prepend) then appendScripts
           else prependScripts)).
End methods.

End StandaloneGenerator.

(** ** Paths, shapes and orders used in the statements *)


Definition is_scalar (j : json) : bool :=
  match j with
  | JArr _ | JObj _ => false
  | _ => true
  end.

(** The shapes of the incoming tree and of the existing value agree for
    the default customizer: no incoming object meets an array, and no
    incoming array meets an object that looks like an array.  (Where two
    arrays meet they are concatenated and the merge goes no deeper; where
    nothing exists yet the incoming tree is copied.) *)
Fixpoint agrees (src : json) (obj : value) {struct src} : bool :=
  match src with
  | JArr _ =>
      match obj with
      | Some (JObj o) => negb (isArrayLike o)
      | _ => true
      end
  | JObj s =>
      match obj with
      | Some (JArr _) => false
      | Some (JObj o) =>
          (fix each (s : list (string * json)) : bool :=
             match s with
             | [] => true
             | kv :: s' => agrees (snd kv) (get_prop (fst kv) o) && each s'
             end) s
      | _ => true
      end
  | _ => true
  end.

Definition agrees_props (s o : list (string * json)) : bool :=
  forallb (fun kv => agrees (snd kv) (get_prop (fst kv) o)) s.

(** The names of a list in the order of their first occurrence. *)
Fixpoint first_occurrences (names : list string) : list string :=
  match names with
  | [] => []
  | n :: names' =>
      n :: List.filter (fun m => negb (String.eqb n m))
             (first_occurrences names')
  end.

Definition mentions (names : list string) (k : string) : bool :=
  existsb (String.eqb k) names.


(** The properties of [scripts] that [names] mentions, one per name, in
    the order of [names]. *)
Fixpoint pick (names : list string) (scripts : list (string * json))
  : list (string * json) :=
  match names with
  | [] => []
  | n :: names' =>
      match get_prop n scripts with
      | Some v => (n, v) :: pick names' scripts
      | None => pick names' scripts
      end
  end.

(** The [scripts] section of the manifest a run leaves in the store. *)
Definition manifest_after (destinationPath : string -> string)
  (r : outcome unit * generator) : option json_file :=
  match r with
  | (Returns _, g) => fs g !! destinationPath "package.json"
  | _ => None
  end.

Definition scripts_after (destinationPath : string -> string)
  (r : outcome unit * generator) : option (list (string * json)) :=
  match manifest_after destinationPath r with
  | Some f =>
      match tree f with
      | JObj pkg =>
          match get_prop "scripts" pkg with
          | Some (JObj scripts) => Some scripts
          | _ => None
          end
      | _ => None
      end
  | None => None
  end.

(** What [sortScripts(names)] is said to make of [scripts]: the names
    present in both come first, in the order of [names]; the other scripts
    follow in the order they had; every script keeps its command. *)
Definition sorted_as_described (names : list string)
  (scripts sorted : list (string * json)) : Prop :=
  keys sorted
  = List.filter (fun n => has_prop n scripts) (first_occurrences names)
    ++ List.filter (fun k => negb (mentions names k)) (keys scripts)
  /\ forall k, get_prop k sorted = get_prop k scripts.

(** What becomes of a validator's reply: a falsy reply is replaced by the
    generic message, and a string ends the run. *)
Definition verdict (name : string) (input reply : value) : outcome unit :=
  match (if negb (truthy reply)
         then Some (JStr ("Invalid " +:+ name +:+ " option '"
                          +:+ toString input +:+ "'"))
         else reply) with
  | Some (JStr msg) => Throws (EnvError msg)
  | _ => Returns tt
  end.

(** ** Sample data *)

(** A destination root, and a generator object holding the given JSON
    files (as the store read them: two-space text) and options. *)
Definition project (p : string) : string := "/project/" +:+ p.

Definition generator_with (files : list (string * json))
  (bag : list (string * value)) : generator :=
  {| options := list_to_map bag;
     _optionPrompts := [];
     fs := list_to_map
             (map (fun pt => (fst pt, {| tree := snd pt; indent := "  " |}))
                files);
     trace := [] |}.

Definition descriptor (name type : string)
  (validate : option (value -> value))
  (allowed : option (gmap string value -> value))
  (whenProhibited : value) : Config.t :=
  {| Config.name := name;
     Config.type := type;
     Config.alias := None;
     Config.description := None;
     Config.message := None;
     Config.def := DefaultValue None;
     Config.validate := validate;
     Config.allowed := allowed;
     Config.whenProhibited := whenProhibited |}.

(** A user who answers every question with the same text. *)
Definition answers_with (text : string) : Question.t -> value :=
  fun _ => Some (JStr text).

Definition is_prompt (e : event) : bool :=
  match e with
  | Prompted _ => true
  | Validated _ _ => false
  end.

(** The names of the questions a trace shows, in the order they were
    put. *)
Fixpoint prompted (events : list event) : list string :=
  match events with
  | [] => []
  | Prompted name :: events' => name :: prompted events'
  | Validated _ _ :: events' => prompted events'
  end.


(** * Facts *)

(** ** Property lists *)

Section props_facts.
Context {A : Type}.
Implicit Types (o : list (string * A)) (k : string) (v : A).

Lemma has_prop_spec k o : has_prop k o = true <-> In k (keys o).
Proof.
  unfold has_prop. induction o as [|[k' v'] o IH]; simpl.
  - split; [discriminate | tauto].
  - destruct (String.eqb_spec k k') as [->|Hne].
    + split; auto.
    + rewrite IH. split; [auto | intros [Heq|H]; [congruence | exact H]].
Qed.

Lemma get_prop_None k o : get_prop k o = None <-> ~ In k (keys o).
Proof.
  rewrite <- has_prop_spec. unfold has_prop.
  destruct (get_prop k o); split; intros H; try congruence; try tauto.
Qed.

Lemma get_prop_replace_eq k v o :
  has_prop k o = true -> get_prop k (replace_prop k v o) = Some v.
Proof.
  unfold has_prop. induction o as [|[k' v'] o IH]; simpl; [discriminate|].
  destruct (String.eqb_spec k k') as [->|Hne]; simpl.
  - rewrite String.eqb_refl. reflexivity.
  - destruct (String.eqb_spec k k'); [congruence | exact IH].
Qed.

Lemma get_prop_replace_ne k k' v o :
  k <> k' -> get_prop k' (replace_prop k v o) = get_prop k' o.
Proof.
  intros Hne. induction o as [|[k0 v0] o IH]; simpl; [reflexivity|].
  destruct (String.eqb_spec k k0) as [->|Hne0]; simpl.
  - destruct (String.eqb_spec k' k0); [congruence | reflexivity].
  - rewrite IH. reflexivity.
Qed.

Lemma keys_replace k v o : keys (replace_prop k v o) = keys o.
Proof.
  induction o as [|[k0 v0] o IH]; simpl; [reflexivity|].
  destruct (String.eqb_spec k k0) as [->|Hne0]; simpl; [reflexivity|].
  f_equal. exact IH.
Qed.

Lemma get_prop_insert_index i k k' v o :
  get_prop k o = None ->
  get_prop k' (insert_index i k v o)
  = if String.eqb k' k then Some v else get_prop k' o.
Proof.
  induction o as [|[k0 v0] o IH]; simpl; [reflexivity|].
  destruct (String.eqb_spec k k0) as [->|Hk]; [discriminate|]. intros Hnone.
  destruct (array_index k0) as [j|]; [destruct (j <? i)%N|]; simpl;
    try reflexivity.
  rewrite (IH Hnone). destruct (String.eqb_spec k' k0) as [->|]; [|reflexivity].
  destruct (String.eqb_spec k0 k) as [->|]; [congruence|reflexivity].
Qed.

Lemma get_prop_app k o o' :
  get_prop k (o ++ o')
  = match get_prop k o with Some v => Some v | None => get_prop k o' end.
Proof.
  induction o as [|[k0 v0] o IH]; simpl; [reflexivity|].
  destruct (String.eqb k k0); [reflexivity | exact IH].
Qed.

Lemma get_prop_set_prop k k' v o :
  get_prop k' (set_prop k v o)
  = if String.eqb k' k then Some v else get_prop k' o.
Proof.
  unfold set_prop. destruct (has_prop k o) eqn:Hhas.
  - destruct (String.eqb_spec k' k) as [->|Hne].
    + apply get_prop_replace_eq, Hhas.
    + apply get_prop_replace_ne. congruence.
  - assert (Hnone : get_prop k o = None).
    { unfold has_prop in Hhas. destruct (get_prop k o); congruence. }
    destruct (array_index k) as [i|].
    + apply get_prop_insert_index, Hnone.
    + rewrite get_prop_app. simpl.
      destruct (String.eqb_spec k' k) as [->|Hne].
      * rewrite Hnone. reflexivity.
      * destruct (get_prop k' o); reflexivity.
Qed.

Lemma get_prop_set_prop_eq k v o : get_prop k (set_prop k v o) = Some v.
Proof. rewrite get_prop_set_prop, String.eqb_refl. reflexivity. Qed.

Lemma get_prop_set_prop_ne k k' v o :
  k <> k' -> get_prop k' (set_prop k v o) = get_prop k' o.
Proof.
  intros Hne. rewrite get_prop_set_prop.
  destruct (String.eqb_spec k' k); [congruence | reflexivity].
Qed.

Lemma get_prop_delete_prop k k' o :
  get_prop k' (delete_prop k o)
  = if String.eqb k' k then None else get_prop k' o.
Proof.
  unfold delete_prop. induction o as [|[k0 v0] o IH]; simpl.
  - destruct (String.eqb k' k); reflexivity.
  - destruct (String.eqb_spec k k0) as [->|Hne]; simpl.
    + rewrite IH. destruct (String.eqb_spec k' k0); reflexivity.
    + rewrite IH. destruct (String.eqb_spec k' k0) as [->|]; [|reflexivity].
      destruct (String.eqb_spec k0 k); [congruence | reflexivity].
Qed.
End props_facts.


(** ** Outcomes, and the merge property by property *)

Section outcome_facts.
Context {A B : Type}.

Lemma bind_Returns (m : outcome A) (k : A -> outcome B) (b : B) :
  m ≫= k = Returns b -> exists a, m = Returns a /\ k a = Returns b.
Proof. destruct m; simpl; intros H; try discriminate. eauto. Qed.

Lemma fmap_Returns (f : A -> B) (m : outcome A) (b : B) :
  f <$> m = Returns b -> exists a, m = Returns a /\ b = f a.
Proof.
  destruct m; simpl; intros H; try discriminate.
  injection H as <-. eauto.
Qed.
End outcome_facts.

Ltac outcome_inv :=
  repeat match goal with
    | H : _ ≫= _ = Returns _ |- _ =>
        apply bind_Returns in H; destruct H as (? & ? & H)
    | H : _ <$> _ = Returns _ |- _ =>
        apply fmap_Returns in H; destruct H as (? & H & ?)
    | H : Returns _ = Returns _ |- _ => injection H as H
    end.

Lemma distinct_NoDup (ks : list string) :
  distinct ks = true <-> List.NoDup ks.
Proof.
  induction ks as [|k ks IH]; simpl.
  - split; [constructor | reflexivity].
  - rewrite andb_true_iff, negb_true_iff, IH. split.
    + intros [Hk Hks]. constructor; [|exact Hks].
      intros Hin. apply not_true_iff_false in Hk. apply Hk.
      apply existsb_exists. exists k. split; [exact Hin | apply String.eqb_refl].
    + intros Hnd. inversion Hnd as [|? ? Hk Hks]; subst. split; [|exact Hks].
      apply not_true_iff_false. intros Hex. apply existsb_exists in Hex.
      destruct Hex as (k' & Hin & Heq). apply String.eqb_eq in Heq. subst.
      contradiction.
Qed.

Section merge_facts.
Variable c : customizer.

Lemma mergeValue_array l objValue :
  mergeValue c (JArr l) objValue
  = match c objValue (JArr l) with
    | Some newValue => Returns newValue
    | None => base ← array_target objValue; JArr <$> mergeElems c l base
    end.
Proof. reflexivity. Qed.

Lemma mergeValue_object s objValue :
  mergeValue c (JObj s) objValue
  = match c objValue (JObj s) with
    | Some newValue => Returns newValue
    | None => base ← object_target objValue; JObj <$> baseMerge c s base
    end.
Proof. reflexivity. Qed.

Lemma baseMerge_cons kv s o :
  baseMerge c (kv :: s) o
  = v ← mergeValue c (snd kv) (get_prop (fst kv) o);
    baseMerge c s (set_prop (fst kv) v o).
Proof. reflexivity. Qed.

Lemma mergeValue_scalar src objValue :
  is_scalar src = true ->
  mergeValue c src objValue
  = Returns (match c objValue src with Some v => v | None => src end).
Proof. destruct src; simpl; congruence. Qed.

(** A property the source does not name is left as it was. *)
Lemma baseMerge_untouched s : forall o r k,
  baseMerge c s o = Returns r ->
  get_prop k s = None -> get_prop k r = get_prop k o.
Proof.
  induction s as [|[k0 v0] s IH]; simpl; intros o r k Hm Hk.
  - injection Hm as <-. reflexivity.
  - destruct (String.eqb_spec k k0) as [->|Hne]; [discriminate|].
    outcome_inv. rewrite (IH _ _ _ Hm Hk).
    apply get_prop_set_prop_ne. congruence.
Qed.

(** A property the source names ends up with the merge of the incoming
    value into the existing one. *)
Lemma baseMerge_merged s : forall o r k v,
  distinct (keys s) = true ->
  baseMerge c s o = Returns r ->
  get_prop k s = Some v ->
  exists v', mergeValue c v (get_prop k o) = Returns v'
             /\ get_prop k r = Some v'.
Proof.
  induction s as [|[k0 v0] s IH]; simpl; intros o r k v Hd Hm Hk;
    [discriminate|].
  apply andb_true_iff in Hd as [Hfresh Hd]. outcome_inv.
  destruct (String.eqb_spec k k0) as [->|Hne].
  - injection Hk as ->. eexists. split; [eassumption|].
    rewrite (baseMerge_untouched _ _ _ _ Hm).
    + apply get_prop_set_prop_eq.
    + apply get_prop_None. intros Hin.
      apply negb_true_iff, not_true_iff_false in Hfresh. apply Hfresh.
      apply existsb_exists. exists k0. split; [exact Hin | apply String.eqb_refl].
  - destruct (IH _ _ _ _ Hd Hm Hk) as (v' & Hv' & Hr).
    rewrite get_prop_set_prop_ne in Hv' by congruence. eauto.
Qed.
End merge_facts.


(** ** Assignment in the order of the engine; merging into nothing *)

Section order_facts.
Context {A : Type}.
Implicit Types (o : list (string * A)) (k : string) (v : A).

Lemma set_prop_fresh_plain k v o :
  get_prop k o = None -> array_index k = None ->
  set_prop k v o = o ++ [(k, v)].
Proof.
  intros Hk Hi. unfold set_prop, has_prop. rewrite Hk, Hi. reflexivity.
Qed.

Lemma ordered_from_bound lo o k v o' i j :
  ordered_from lo (o ++ (k, v) :: o') = true ->
  array_index k = Some i -> lo = Some j -> (j < i)%N.
Proof.
  revert lo j. induction o as [|[k0 v0] o IH]; simpl; intros lo j Ho Hi ->.
  - rewrite Hi in Ho. apply andb_true_iff in Ho as [Hlt _].
    apply N.ltb_lt, Hlt.
  - destruct (array_index k0) as [j0|] eqn:Hk0.
    + apply andb_true_iff in Ho as [Hlt Ho]. apply N.ltb_lt in Hlt.
      specialize (IH _ _ Ho Hi eq_refl). lia.
    + rewrite forallb_app in Ho. simpl in Ho. unfold is_index in Ho.
      rewrite Hi in Ho. simpl in Ho. rewrite andb_false_r in Ho.
      discriminate.
Qed.

Lemma ordered_from_before lo o k v o' i :
  ordered_from lo (o ++ (k, v) :: o') = true ->
  array_index k = Some i ->
  Forall (fun kv => exists j, array_index (fst kv) = Some j /\ (j < i)%N) o.
Proof.
  revert lo. induction o as [|[k0 v0] o IH]; simpl; intros lo Ho Hi;
    [constructor|].
  destruct (array_index k0) as [j0|] eqn:Hk0.
  - assert (Ho' : ordered_from (Some j0) (o ++ (k, v) :: o') = true).
    { destruct lo; [apply andb_true_iff in Ho as [_ Ho]|]; exact Ho. }
    constructor; [|exact (IH _ Ho' Hi)].
    exists j0. split; [exact Hk0|].
    exact (ordered_from_bound _ _ _ _ _ _ _ Ho' Hi eq_refl).
  - rewrite forallb_app in Ho. simpl in Ho. unfold is_index in Ho.
    rewrite Hi in Ho. simpl in Ho. rewrite andb_false_r in Ho. discriminate.
Qed.

Lemma insert_index_last i k v o :
  Forall (fun kv => exists j, array_index (fst kv) = Some j /\ (j < i)%N) o ->
  insert_index i k v o = o ++ [(k, v)].
Proof.
  induction 1 as [|[k0 v0] o (j & Hj & Hlt) _ IH]; simpl; [reflexivity|].
  simpl in Hj. rewrite Hj. apply N.ltb_lt in Hlt. rewrite Hlt, IH.
  reflexivity.
Qed.

(** Assigning the properties of a well-formed list one after the other
    rebuilds the list. *)
Lemma set_prop_next k v o o' :
  wf_props (o ++ (k, v) :: o') = true ->
  set_prop k v o = o ++ [(k, v)].
Proof.
  unfold wf_props. rewrite !andb_true_iff. intros [[Hd Ho] _].
  assert (Hk : get_prop k o = None).
  { apply get_prop_None. apply distinct_NoDup in Hd. unfold keys in Hd.
    rewrite map_app in Hd. simpl in Hd.
    apply List.NoDup_remove_2 in Hd. intros Hin. apply Hd.
    apply in_or_app. left. exact Hin. }
  unfold set_prop, has_prop. rewrite Hk.
  destruct (array_index k) as [i|] eqn:Hi; [|reflexivity].
  apply insert_index_last. exact (ordered_from_before _ _ _ _ _ _ Ho Hi).
Qed.
End order_facts.

Section copy_facts.
Variable c : customizer.
Hypothesis c_defers : forall src, c None src = None.

Lemma mergeElems_copy l :
  Forall (fun j => wf_json j = true -> mergeValue c j None = Returns j) l ->
  forallb wf_json l = true ->
  mergeElems c l [] = Returns l.
Proof.
  induction 1 as [|j l Hj _ IH]; simpl; intros Hwf; [reflexivity|].
  apply andb_true_iff in Hwf as [Hwfj Hwf].
  rewrite (Hj Hwfj). simpl. rewrite (IH Hwf). reflexivity.
Qed.

Lemma baseMerge_copy s : forall o,
  Forall (fun kv => wf_json (snd kv) = true
                    -> mergeValue c (snd kv) None = Returns (snd kv)) s ->
  forallb (fun kv => wf_json (snd kv)) s = true ->
  wf_props (o ++ s) = true ->
  baseMerge c s o = Returns (o ++ s).
Proof.
  induction s as [|[k v] s IH]; simpl; intros o Hall Hwf Hprops.
  - rewrite app_nil_r. reflexivity.
  - apply andb_true_iff in Hwf as [Hwfv Hwf].
    inversion Hall as [|? ? Hv Hall']; subst. simpl in Hv.
    assert (Hk : get_prop k o = None).
    { destruct (get_prop k o) eqn:E; [|reflexivity]. exfalso.
      unfold wf_props in Hprops. rewrite !andb_true_iff in Hprops.
      destruct Hprops as [[Hd _] _]. apply distinct_NoDup in Hd.
      unfold keys in Hd. rewrite map_app in Hd. simpl in Hd.
      apply List.NoDup_remove_2 in Hd. apply Hd. apply in_or_app. left.
      apply has_prop_spec. unfold has_prop. rewrite E. reflexivity. }
    rewrite Hk, (Hv Hwfv). simpl.
    rewrite (set_prop_next _ _ _ _ Hprops).
    rewrite IH; [|exact Hall'|exact Hwf|].
    + rewrite <- app_assoc. reflexivity.
    + rewrite <- app_assoc. exact Hprops.
Qed.

(** Merged into nothing, a tree is copied. *)
Lemma mergeValue_copy j :
  wf_json j = true -> mergeValue c j None = Returns j.
Proof.
  induction j as [| | | |l IH|o IH] using json_tree_ind; intros Hwf;
    try (simpl; rewrite c_defers; reflexivity).
  - rewrite mergeValue_array, c_defers. simpl in *.
    rewrite (mergeElems_copy _ IH Hwf). reflexivity.
  - rewrite mergeValue_object, c_defers. simpl in *.
    apply andb_true_iff in Hwf as [Hprops Hwf].
    rewrite (baseMerge_copy _ [] IH Hwf Hprops). reflexivity.
Qed.
End copy_facts.


(** ** The default customizer *)

Section default_customizer.
Import Generator.




Lemma agrees_object s o :
  agrees (JObj s) (Some (JObj o)) = agrees_props s o.
Proof. reflexivity. Qed.


End default_customizer.


(** ** The default merge, path by path *)




Section default_paths.
Import Generator.




End default_paths.


(** ** The loop of [sortScripts] *)

Section sort_facts.
Implicit Types (names : list string) (scripts sorted : list (string * json)).

Lemma mentions_spec names k : mentions names k = true <-> In k names.
Proof.
  unfold mentions. rewrite existsb_exists. split.
  - intros (n & Hin & Heq). apply String.eqb_eq in Heq. subst. exact Hin.
  - intros Hin. exists k. split; [exact Hin | apply String.eqb_refl].
Qed.

Lemma mentions_without n names k :
  mentions (List.filter (fun m => negb (String.eqb n m)) names) k
  = negb (String.eqb k n) && mentions names k.
Proof.
  unfold mentions. induction names as [|m names IH]; simpl.
  - rewrite andb_false_r. reflexivity.
  - destruct (String.eqb_spec n m) as [->|Hnm]; simpl; rewrite IH.
    + destruct (String.eqb k m); reflexivity.
    + destruct (String.eqb_spec k m) as [->|]; simpl; [|reflexivity].
      destruct (String.eqb_spec m n); [congruence | reflexivity].
Qed.

Lemma mentions_first_occurrences names k :
  mentions (first_occurrences names) k = mentions names k.
Proof.
  induction names as [|n names IH]; simpl; [reflexivity|].
  change (existsb (String.eqb k) ?l) with (mentions l k).
  rewrite mentions_without, IH.
  destruct (String.eqb k n); reflexivity.
Qed.

Lemma get_prop_filter (p : string -> bool) scripts k :
  get_prop k (List.filter (fun kv => p (fst kv)) scripts)
  = if p k then get_prop k scripts else None.
Proof.
  induction scripts as [|[k0 v0] scripts IH]; simpl.
  - destruct (p k); reflexivity.
  - destruct (p k0) eqn:Hp0; simpl; rewrite IH;
      destruct (String.eqb_spec k k0) as [->|Hne]; try reflexivity.
    + rewrite Hp0. reflexivity.
    + rewrite Hp0. reflexivity.
Qed.

Lemma get_prop_pick names scripts k :
  get_prop k (pick names scripts)
  = if mentions names k then get_prop k scripts else None.
Proof.
  induction names as [|n names IH]; simpl; [reflexivity|].
  destruct (get_prop n scripts) as [v|] eqn:Hn; simpl; rewrite IH;
    destruct (String.eqb_spec k n) as [->|Hne]; simpl; try reflexivity.
  - congruence.
  - rewrite Hn. destruct (mentions names n); reflexivity.
Qed.

Lemma keys_pick names scripts :
  keys (pick names scripts)
  = List.filter (fun n => has_prop n scripts) names.
Proof.
  unfold has_prop. induction names as [|n names IH]; simpl; [reflexivity|].
  destruct (get_prop n scripts); simpl; rewrite IH; reflexivity.
Qed.

Lemma keys_filter (p : string -> bool) scripts :
  keys (List.filter (fun kv => p (fst kv)) scripts)
  = List.filter p (keys scripts).
Proof.
  induction scripts as [|[k0 v0] scripts IH]; simpl; [reflexivity|].
  destruct (p k0); simpl; rewrite IH; reflexivity.
Qed.

Lemma pick_without n names scripts :
  pick names (delete_prop n scripts)
  = pick (List.filter (fun m => negb (String.eqb n m)) names) scripts.
Proof.
  induction names as [|m names IH]; simpl; [reflexivity|].
  rewrite get_prop_delete_prop.
  destruct (String.eqb_spec n m) as [->|Hne]; simpl.
  - rewrite String.eqb_refl. exact IH.
  - destruct (String.eqb_spec m n); [congruence|].
    destruct (get_prop m scripts); rewrite IH; reflexivity.
Qed.

Lemma pick_absent n names scripts :
  get_prop n scripts = None ->
  pick (List.filter (fun m => negb (String.eqb n m)) names) scripts
  = pick names scripts.
Proof.
  intros Hn. induction names as [|m names IH]; simpl; [reflexivity|].
  destruct (String.eqb_spec n m) as [->|Hne]; simpl.
  - rewrite Hn. exact IH.
  - rewrite IH. reflexivity.
Qed.

Lemma filter_filter {A} (p q : A -> bool) (l : list A) :
  List.filter p (List.filter q l) = List.filter (fun x => q x && p x) l.
Proof.
  induction l as [|x l IH]; simpl; [reflexivity|].
  destruct (q x); simpl; [destruct (p x)|]; rewrite IH; reflexivity.
Qed.

(** The loop of [sortScripts], when no script name is an array index. *)
Lemma sort_loop names : forall sorted scripts,
  forallb (fun k => negb (is_index k)) (keys scripts) = true ->
  (forall k, In k (keys sorted) -> get_prop k scripts = None) ->
  fold_left Generator.sort_step names (sorted, scripts)
  = (sorted ++ pick (first_occurrences names) scripts,
     List.filter (fun kv => negb (mentions names (fst kv))) scripts).
Proof.
  induction names as [|n names IH]; intros sorted scripts Hplain Hapart;
    simpl.
  - rewrite app_nil_r. f_equal. symmetry. apply forallb_filter_id.
    apply forallb_forall. reflexivity.
  - destruct (get_prop n scripts) as [v|] eqn:Hn.
    + assert (Hfresh : get_prop n sorted = None).
      { destruct (get_prop n sorted) eqn:E; [|reflexivity].
        assert (In n (keys sorted)) as Hin.
        { apply has_prop_spec. unfold has_prop. rewrite E. reflexivity. }
        rewrite (Hapart _ Hin) in Hn. discriminate. }
      assert (Hidx : array_index n = None).
      { rewrite forallb_forall in Hplain.
        assert (In n (keys scripts)) as Hin.
        { apply has_prop_spec. unfold has_prop. rewrite Hn. reflexivity. }
        specialize (Hplain _ Hin). unfold is_index in Hplain.
        destruct (array_index n); [discriminate | reflexivity]. }
      rewrite (set_prop_fresh_plain _ _ _ Hfresh Hidx).
      rewrite IH.
      * rewrite <- app_assoc. simpl. rewrite pick_without.
        f_equal. unfold delete_prop. rewrite filter_filter.
        apply List.filter_ext. intros [k0 v0]. simpl.
        rewrite (String.eqb_sym k0 n).
        destruct (String.eqb n k0); reflexivity.
      * unfold delete_prop.
        rewrite (keys_filter (fun m => negb (String.eqb n m))).
        rewrite forallb_forall in *. intros k Hk.
        apply List.filter_In in Hk as [Hk _]. auto.
      * intros k Hk. rewrite get_prop_delete_prop.
        destruct (String.eqb_spec k n) as [->|Hne]; [reflexivity|].
        apply Hapart. unfold keys in *. rewrite map_app in Hk.
        apply in_app_or in Hk as [Hk|Hk]; [exact Hk|].
        simpl in Hk. destruct Hk as [Hk|[]]. congruence.
    + rewrite IH by assumption. rewrite (pick_absent _ _ _ Hn).
      f_equal. apply List.filter_ext_in. intros [k0 v0] Hin. simpl.
      destruct (String.eqb_spec k0 n) as [->|Hne]; [|reflexivity].
      exfalso. apply get_prop_None in Hn. apply Hn.
      apply (in_map fst) in Hin. exact Hin.
Qed.

(** [assign] appends properties that are new and no array indices. *)
Lemma assign_append (rest : list (string * json)) : forall sorted,
  distinct (keys rest) = true ->
  forallb (fun k => negb (is_index k)) (keys rest) = true ->
  (forall k, In k (keys rest) -> get_prop k sorted = None) ->
  assign sorted rest = sorted ++ rest.
Proof.
  unfold assign.
  induction rest as [|[k v] rest IH]; intros sorted Hd Hplain Hapart; simpl.
  - rewrite app_nil_r. reflexivity.
  - simpl in Hd, Hplain.
    apply andb_true_iff in Hd as [Hk Hd].
    apply andb_true_iff in Hplain as [Hidx Hplain].
    rewrite set_prop_fresh_plain.
    + rewrite IH; [rewrite <- app_assoc; reflexivity | exact Hd | exact Hplain |].
      intros k' Hk'. rewrite get_prop_app, (Hapart k') by (right; exact Hk').
      simpl. destruct (String.eqb_spec k' k) as [->|]; [|reflexivity].
      exfalso. apply negb_true_iff, not_true_iff_false in Hk. apply Hk.
      apply existsb_exists. exists k. split; [exact Hk' | apply String.eqb_refl].
    + apply Hapart. left. reflexivity.
    + unfold is_index in Hidx. destruct (array_index k); [discriminate|reflexivity].
Qed.
End sort_facts.


Section sortScripts_facts.
Import Generator.
Variable destinationPath : string -> string.

Lemma sortScripts_run names g file pkg scripts :
  fs g !! destinationPath "package.json" = Some file ->
  tree file = JObj pkg ->
  get_prop "scripts" pkg = Some (JObj scripts) ->
  sortScripts destinationPath names g
  = let '(sorted, rest) := fold_left sort_step names ([], scripts) in
    (Returns tt,
     set_fs (MemFs.writeJSON (destinationPath "package.json")
               (JObj (set_prop "scripts" (JObj (assign sorted rest)) pkg))
               tab) g).
Proof.
  intros Hfile Htree Hscripts.
  cbv beta iota zeta
    delta [sortScripts this mbind method_bind andThen MemFs.readJSON].
  rewrite Hfile, Htree, Hscripts.
  destruct (fold_left sort_step names ([], scripts)). reflexivity.
Qed.

Lemma sortScripts_plain_names names g file pkg scripts :
  fs g !! destinationPath "package.json" = Some file ->
  tree file = JObj pkg ->
  get_prop "scripts" pkg = Some (JObj scripts) ->
  wf_props scripts = true ->
  forallb (fun k => negb (is_index k)) (keys scripts) = true ->
  let sorted := pick (first_occurrences names) scripts
                ++ List.filter (fun kv => negb (mentions names (fst kv)))
                     scripts in
  sortScripts destinationPath names g
  = (Returns tt,
     set_fs (MemFs.writeJSON (destinationPath "package.json")
               (JObj (set_prop "scripts" (JObj sorted) pkg)) tab) g)
  /\ sorted_as_described names scripts sorted.
Proof.
  intros Hfile Htree Hscripts Hwf Hplain sorted.
  rewrite (sortScripts_run _ _ _ _ _ Hfile Htree Hscripts).
  rewrite (sort_loop names [] scripts Hplain) by (intros k []).
  simpl app.
  assert (Hassign :
    assign (pick (first_occurrences names) scripts)
      (List.filter (fun kv => negb (mentions names (fst kv))) scripts)
    = sorted).
  { apply assign_append.
    - rewrite (keys_filter (fun k => negb (mentions names k))).
      apply distinct_NoDup, List.NoDup_filter, distinct_NoDup.
      unfold wf_props in Hwf. rewrite !andb_true_iff in Hwf. tauto.
    - rewrite (keys_filter (fun k => negb (mentions names k))).
      rewrite forallb_forall in *. intros k Hk.
      apply List.filter_In in Hk as [Hk _]. auto.
    - intros k Hk.
      rewrite (keys_filter (fun k => negb (mentions names k))) in Hk.
      apply List.filter_In in Hk as [_ Hk].
      rewrite get_prop_pick, mentions_first_occurrences.
      apply negb_true_iff in Hk. rewrite Hk. reflexivity. }
  rewrite Hassign. split; [reflexivity|]. split.
  - unfold sorted.
    rewrite <- keys_pick.
    rewrite <- (keys_filter (fun k => negb (mentions names k))).
    unfold keys. apply map_app.
  - intros k. unfold sorted. rewrite get_prop_app, get_prop_pick.
    rewrite mentions_first_occurrences.
    rewrite (get_prop_filter (fun k => negb (mentions names k))).
    destruct (mentions names k); simpl; [|reflexivity].
    destruct (get_prop k scripts); reflexivity.
Qed.
End sortScripts_facts.


(** ** The steps of [OptionPrompt] *)

Section option_prompt_facts.
Import OptionPrompt.
Variable ask : Question.t -> value.

Lemma set_options_id g : set_options (fun bag => bag) g = g.
Proof. destruct g. reflexivity. Qed.

Lemma option_value_set name v g :
  option_value (set_options <[name := v]> g) name = v.
Proof.
  unfold option_value, set_options. simpl. rewrite lookup_insert_eq.
  reflexivity.
Qed.


(** The three ways [prompt] can go. *)
Lemma prompt_prohibited config g :
  isAllowed config g = false ->
  prompt ask config g
  = (Returns tt,
     set_options <[Config.name config := Config.whenProhibited config]> g).
Proof.
  intros Hno. cbv beta iota zeta delta [prompt this mbind method_bind andThen].
  rewrite Hno. reflexivity.
Qed.

Lemma prompt_provided config g v :
  isAllowed config g = true ->
  option_value g (Config.name config) = Some v ->
  prompt ask config g = (Returns tt, g).
Proof.
  intros Hyes Hv.
  cbv beta iota zeta delta [prompt this mbind method_bind andThen].
  rewrite Hyes. cbn [generator_prompt question Question.when].
  rewrite Hv.
  cbv beta iota zeta delta [mret method_ret done_ update assign_options].
  simpl. rewrite set_options_id. reflexivity.
Qed.

Lemma prompt_missing config g :
  isAllowed config g = true ->
  option_value g (Config.name config) = None ->
  prompt ask config g
  = (Returns tt,
     set_options <[Config.name config := ask (question config g)]>
       (log (Prompted (Config.name config)) g)).
Proof.
  intros Hyes Hv.
  cbv beta iota zeta delta [prompt this mbind method_bind andThen].
  rewrite Hyes. cbn [generator_prompt question Question.when].
  rewrite Hv. reflexivity.
Qed.

(** [prompt] always returns. *)
Lemma prompt_returns config g : (prompt ask config g).1 = Returns tt.
Proof.
  destruct (isAllowed config g) eqn:Hal.
  - destruct (option_value g (Config.name config)) eqn:Hv.
    + rewrite (prompt_provided _ _ _ Hal Hv). reflexivity.
    + rewrite (prompt_missing _ _ Hal Hv). reflexivity.
  - rewrite (prompt_prohibited _ _ Hal). reflexivity.
Qed.

Lemma validate_run config validator g :
  Config.validate config = Some validator ->
  let name := Config.name config in
  let input := option_value g name in
  validate config g
  = (verdict name input (validator input), log (Validated name input) g).
Proof.
  intros Hv name input. unfold validate. rewrite Hv.
  cbv beta iota zeta delta [this mbind method_bind andThen update].
  fold name. fold input. unfold verdict.
  destruct (if negb (truthy (validator input)) then _ else _)
    as [[| | |msg| |]|]; reflexivity.
Qed.

Lemma validate_absent config g :
  Config.validate config = None -> validate config g = (Returns tt, g).
Proof. intros Hv. unfold validate. rewrite Hv. reflexivity. Qed.

Lemma resolve_run config validator g :
  Config.validate config = Some validator ->
  let name := Config.name config in
  let g1 := (prompt ask config g).2 in
  let input := option_value g1 name in
  resolve ask config g
  = (verdict name input (validator input), log (Validated name input) g1).
Proof.
  intros Hv name g1 input. unfold resolve.
  cbv beta iota zeta delta [mbind method_bind andThen].
  pose proof (prompt_returns config g) as Hret.
  destruct (prompt ask config g) as [o g'] eqn:Hp. simpl in Hret. subst o.
  rewrite (validate_run _ _ _ Hv). reflexivity.
Qed.
End option_prompt_facts.


(** ** Runs of [extendJson] *)

Section extendJson_facts.
Import Generator.
Variable destinationPath : string -> string.

Lemma extendJson_run path contents customizer g obj :
  MemFs.readJSON (fs g) (destinationPath path) (JObj []) = JObj obj ->
  extendJson destinationPath path contents customizer g
  = match mergeWith obj contents (default concatArrays customizer) with
    | Returns merged =>
        (Returns tt,
         set_fs (MemFs.writeJSON (destinationPath path) (JObj merged) tab) g)
    | Throws e => (Throws e, g)
    | Unmodelled => (Unmodelled, g)
    end.
Proof.
  intros Hread.
  cbv beta iota zeta delta [extendJson this mbind method_bind andThen lift].
  rewrite Hread. destruct (mergeWith _ _ _); reflexivity.
Qed.




(** A source of scalars always merges. *)
Lemma baseMerge_scalars c s : forall o,
  forallb (fun kv => is_scalar (snd kv)) s = true ->
  exists r, baseMerge c s o = Returns r.
Proof.
  induction s as [|[k v] s IH]; simpl; intros o Hs; [eauto|].
  apply andb_true_iff in Hs as [Hv Hs].
  rewrite (mergeValue_scalar _ _ _ Hv). simpl. apply IH, Hs.
Qed.
End extendJson_facts.

(** [addScripts] for a customizer that joins two strings with [combine]
    and defers otherwise. *)
Section scripts_facts.
Variable destinationPath : string -> string.
Variable c : customizer.
Variable combine : string -> string -> string.
Hypothesis c_joins : forall obj src,
  c obj src = match obj, src with
              | Some (JStr a), JStr b => Some (JStr (combine a b))
              | _, _ => None
              end.

Lemma c_object obj s : c obj (JObj s) = None.
Proof. rewrite c_joins. destruct obj as [[]|]; reflexivity. Qed.

Lemma extendPackage_scripts g pkg existing scripts :
  MemFs.readJSON (fs g) (destinationPath "package.json") (JObj [])
  = JObj pkg ->
  object_target (get_prop "scripts" pkg) = Returns existing ->
  distinct (keys scripts) = true ->
  forallb (fun kv => isString (Some (snd kv))) scripts = true ->
  exists merged,
    Generator.extendPackage destinationPath [("scripts", JObj scripts)]
      (Some c) g
    = (Returns tt,
       set_fs (MemFs.writeJSON (destinationPath "package.json")
                 (JObj (set_prop "scripts" (JObj merged) pkg)) tab) g)
    /\ (forall name e n,
           get_prop name existing = Some (JStr e) ->
           get_prop name scripts = Some (JStr n) ->
           get_prop name merged = Some (JStr (combine e n)))
    /\ (forall name n,
           isString (get_prop name existing) = false ->
           get_prop name scripts = Some (JStr n) ->
           get_prop name merged = Some (JStr n))
    /\ (forall name,
           get_prop name scripts = None ->
           get_prop name merged = get_prop name existing).
Proof.
  intros Hread Htarget Hd Hstr.
  assert (Hscalars : forallb (fun kv => is_scalar (snd kv)) scripts = true).
  { rewrite forallb_forall in *. intros kv Hin. specialize (Hstr kv Hin).
    destruct (snd kv); simpl in *; congruence. }
  destruct (baseMerge_scalars c scripts existing Hscalars) as [merged Hm].
  exists merged. split; [|split; [|split]].
  - unfold Generator.extendPackage.
    rewrite (extendJson_run _ _ _ _ _ _ Hread). simpl default.
    unfold mergeWith. rewrite baseMerge_cons. cbn [fst snd].
    rewrite mergeValue_object, c_object, Htarget. simpl.
    rewrite Hm. reflexivity.
  - intros name e n He Hn.
    destruct (baseMerge_merged _ _ _ _ _ _ Hd Hm Hn) as (v' & Hv' & ->).
    rewrite He in Hv'. simpl in Hv'. rewrite c_joins in Hv'. congruence.
  - intros name n He Hn.
    destruct (baseMerge_merged _ _ _ _ _ _ Hd Hm Hn) as (v' & Hv' & ->).
    simpl in Hv'. rewrite c_joins in Hv'.
    destruct (get_prop name existing) as [[]|]; simpl in *; congruence.
  - intros name Hn. exact (baseMerge_untouched _ _ _ _ _ Hm Hn).
Qed.
End scripts_facts.


(** * The claims *)

(** ** Script helpers *)

(** [addScripts] of lib/generator.js, for a mapping of names to command
    strings and a manifest whose [scripts] section is [existing] (or is
    absent, [existing = []]): a name present on both sides gets
    [e && n], or [n && e] when [prepend] is truthy; a name with no command
    string yet gets the incoming one; the other scripts stay. *)
Lemma Generator_addScripts_combines destinationPath g pkg existing scripts
    prepend :
  MemFs.readJSON (fs g) (destinationPath "package.json") (JObj []) = JObj pkg ->
  object_target (get_prop "scripts" pkg) = Returns existing ->
  distinct (keys scripts) = true ->
  forallb (fun kv => isString (Some (snd kv))) scripts = true ->
  exists merged,
    Generator.addScripts destinationPath scripts prepend g
    = (Returns tt,
       set_fs (MemFs.writeJSON (destinationPath "package.json")
                 (JObj (set_prop "scripts" (JObj merged) pkg)) tab) g)
    /\ (forall name e n,
           get_prop name existing = Some (JStr e) ->
           get_prop name scripts = Some (JStr n) ->
           get_prop name merged
           = Some (JStr (if truthy (Some (default (JBool false) prepend))
                         then n +:+ " && " +:+ e
                         else e +:+ " && " +:+ n)))
    /\ (forall name n,
           isString (get_prop name existing) = false ->
           get_prop name scripts = Some (JStr n) ->
           get_prop name merged = Some (JStr n))
    /\ (forall name,
           get_prop name scripts = None ->
           get_prop name merged = get_prop name existing).
Proof.
  intros Hread Htarget Hd Hstr. unfold Generator.addScripts.
  destruct (truthy (Some (default (JBool false) prepend))).
  - apply (extendPackage_scripts destinationPath Generator.prependScripts
             (fun e n => n +:+ " && " +:+ e)); auto.
  - apply (extendPackage_scripts destinationPath Generator.appendScripts
             (fun e n => e +:+ " && " +:+ n)); auto.
Qed.

(** The stand-alone [addScripts] is the other one with [prepend] negated. *)
Lemma StandaloneGenerator_addScripts_as_Generator destinationPath scripts
    prepend g :
  StandaloneGenerator.addScripts destinationPath scripts prepend g
  = Generator.addScripts destinationPath scripts
      (Some (JBool (negb (truthy (Some (default (JBool false) prepend)))))) g.
Proof.
  unfold StandaloneGenerator.addScripts, Generator.addScripts.
  destruct (truthy (Some (default (JBool false) prepend))); reflexivity.
Qed.

(** So it joins the other way round: [n && e] by default. *)
Lemma StandaloneGenerator_addScripts_combines destinationPath g pkg existing
    scripts prepend :
  MemFs.readJSON (fs g) (destinationPath "package.json") (JObj []) = JObj pkg ->
  object_target (get_prop "scripts" pkg) = Returns existing ->
  distinct (keys scripts) = true ->
  forallb (fun kv => isString (Some (snd kv))) scripts = true ->
  exists merged,
    StandaloneGenerator.addScripts destinationPath scripts prepend g
    = (Returns tt,
       set_fs (MemFs.writeJSON (destinationPath "package.json")
                 (JObj (set_prop "scripts" (JObj merged) pkg)) tab) g)
    /\ (forall name e n,
           get_prop name existing = Some (JStr e) ->
           get_prop name scripts = Some (JStr n) ->
           get_prop name merged
           = Some (JStr (if truthy (Some (default (JBool false) prepend))
                         then e +:+ " && " +:+ n
                         else n +:+ " && " +:+ e))).
Proof.
  intros Hread Htarget Hd Hstr.
  rewrite StandaloneGenerator_addScripts_as_Generator.
  set (b := truthy (Some (default (JBool false) prepend))).
  destruct (Generator_addScripts_combines destinationPath g pkg existing
              scripts (Some (JBool (negb b)))
              Hread Htarget Hd Hstr) as (merged & Hrun & Hboth & _).
  exists merged. split; [exact Hrun|].
  intros name e n He Hn. rewrite (Hboth name e n He Hn).
  destruct b; reflexivity.
Qed.

(** C1.  [addScripts({build: "tsc"})] against the scripts
    [{build: "lint"}]: the generator of lib/generator.js writes
    ["lint && tsc"] by default and ["tsc && lint"] with [prepend = true],
    as described; the generator of the older stand-alone file does the
    reverse, ["tsc && lint"] by default and ["lint && tsc"] with
    [prepend = true]. *)
Theorem StandaloneGenerator_addScripts_reversed :
  let g := generator_with
             [("/project/package.json",
               JObj [("scripts", JObj [("build", JStr "lint")])])] [] in
  let scripts := [("build", JStr "tsc")] in
  scripts_after project (Generator.addScripts project scripts None g)
  = Some [("build", JStr "lint && tsc")]
  /\ scripts_after project
       (Generator.addScripts project scripts (Some (JBool true)) g)
     = Some [("build", JStr "tsc && lint")]
  /\ scripts_after project
       (StandaloneGenerator.addScripts project scripts None g)
     = Some [("build", JStr "tsc && lint")]
  /\ scripts_after project
       (StandaloneGenerator.addScripts project scripts (Some (JBool true)) g)
     = Some [("build", JStr "lint && tsc")].
Proof. vm_compute. repeat split; reflexivity. Qed.


(** ** Option/prompt hybrids *)







Lemma resolve_state ask config g :
  let g1 := (OptionPrompt.prompt ask config g).2 in
  options (OptionPrompt.resolve ask config g).2 = options g1
  /\ List.filter is_prompt (trace (OptionPrompt.resolve ask config g).2)
     = List.filter is_prompt (trace g1).
Proof.
  intros g1. destruct (Config.validate config) as [validator|] eqn:Hv.
  - rewrite (resolve_run ask config validator g Hv). fold g1. cbn [snd].
    split; [reflexivity|]. unfold log. simpl.
    rewrite List.filter_app. simpl. apply app_nil_r.
  - unfold OptionPrompt.resolve.
    cbv beta iota zeta delta [mbind method_bind andThen].
    pose proof (prompt_returns ask config g) as Hret. subst g1.
    destruct (OptionPrompt.prompt ask config g) as [o g'].
    simpl in Hret. subst o.
    rewrite (validate_absent _ _ Hv). split; reflexivity.
Qed.



(** C4.  When [allowed] is absent or answers truthy, and the bag already
    holds a defined value for the option, [prompt] puts no question and
    leaves the generator as it is: the value stays. *)
Theorem provided_option_is_kept
    (ask : Question.t -> value) (config : Config.t) (g : generator)
    (v : json) :
  (Config.allowed config = None
   \/ exists allowed, Config.allowed config = Some allowed
                      /\ truthy (allowed (options g)) = true) ->
  option_value g (Config.name config) = Some v ->
  let r := OptionPrompt.resolve ask config g in
  OptionPrompt.prompt ask config g = (Returns tt, g)
  /\ option_value r.2 (Config.name config) = Some v
  /\ List.filter is_prompt (trace r.2) = List.filter is_prompt (trace g).
Proof.
  intros Hal Hv r.
  assert (Hp : OptionPrompt.prompt ask config g = (Returns tt, g)).
  { apply (prompt_provided ask config g v); [|exact Hv].
    unfold OptionPrompt.isAllowed.
    destruct Hal as [->|(allowed & -> & Hyes)]; [reflexivity | exact Hyes]. }
  destruct (resolve_state ask config g) as [Hopts Htrace].
  rewrite Hp in Hopts, Htrace. cbn [snd] in Hopts, Htrace.
  split; [exact Hp|]. split; [|exact Htrace].
  unfold option_value in *. fold r in Hopts. rewrite Hopts. exact Hv.
Qed.

Lemma provided_option_is_kept_witness :
  let config := descriptor "license" "input" None None None in
  let g := generator_with [] [("license", Some (JStr "MIT"))] in
  OptionPrompt.prompt (answers_with "ISC") config g = (Returns tt, g).
Proof.
  intros config g.
  refine (proj1 (provided_option_is_kept (answers_with "ISC") config g
                   (JStr "MIT") (or_introl eq_refl) _)).
  vm_compute. reflexivity.
Defined.




(** ** The flag kind of a descriptor *)

(** The table as written: the two listed kinds, and the error for a type
    that is found neither in the table nor on the prototype. *)
Lemma optionType_table config :
  let type := Config.type config in
  (type = "confirm" -> OptionPrompt.optionType config = Returns BooleanType)
  /\ (type = "input" -> OptionPrompt.optionType config = Returns StringType)
  /\ (get_prop type PromptTypeMap.exports = None ->
      ~ In type PromptTypeMap.Object_prototype ->
      OptionPrompt.optionType config
      = Throws (Error ("Unsupported prompt type '" +:+ type +:+ "'"))).
Proof.
  intros type. unfold OptionPrompt.optionType. fold type.
  split; [|split].
  - intros ->. reflexivity.
  - intros ->. reflexivity.
  - intros Hown Hproto. unfold PromptTypeMap.lookup. rewrite Hown.
    destruct (existsb _ _) eqn:Hex; [|reflexivity].
    exfalso. apply Hproto. apply existsb_exists in Hex as (m & Hin & Heq).
    apply String.eqb_eq in Heq. subst. exact Hin.
Qed.


(** C7.  The flag kind is [Boolean] for ['confirm'] and [String] for
    ['input'], and a type such as ['checkbox'] throws
    [Unsupported prompt type 'checkbox']; but the type ['constructor'] (and
    so every name an object literal inherits) does not throw: the lookup
    finds the inherited member, which is truthy, and [optionType] returns
    it; registering such a descriptor goes through. *)
Theorem optionType_inherited_name_not_rejected :
  let config type := descriptor "flag" type None None None in
  OptionPrompt.optionType (config "confirm") = Returns BooleanType
  /\ OptionPrompt.optionType (config "input") = Returns StringType
  /\ OptionPrompt.optionType (config "checkbox")
     = Throws (Error "Unsupported prompt type 'checkbox'")
  /\ OptionPrompt.optionType (config "constructor")
     = Returns (ObjectPrototypeMember "constructor")
  /\ (forall g, Generator.optionPrompt (config "constructor") g
                = (Returns tt, register (config "constructor") g)).
Proof.
  intros config. repeat split; reflexivity.
Qed.

(** ** [sortScripts] *)

(** C9.  With at least one name given, [sortScripts] throws a [TypeError]
    when the manifest has no [scripts] property, be it that the stored
    object lacks it or that the file is missing and read as [{}]; nothing
    is written. *)
Theorem sortScripts_without_scripts_throws
    (destinationPath : string -> string) (names : list string)
    (g : generator) :
  names <> [] ->
  (fs g !! destinationPath "package.json" = None
   \/ exists file pkg,
        fs g !! destinationPath "package.json" = Some file
        /\ tree file = JObj pkg /\ get_prop "scripts" pkg = None) ->
  exists msg,
    Generator.sortScripts destinationPath names g = (Throws (TypeError msg), g).
Proof.
  intros Hnames Hmanifest.
  destruct names as [|name names]; [contradiction|].
  cbv beta iota zeta
    delta [Generator.sortScripts this mbind method_bind andThen
           MemFs.readJSON throw].
  destruct Hmanifest as [->|(file & pkg & -> & -> & ->)]; simpl; eauto.
Qed.

Lemma sortScripts_without_scripts_throws_witness :
  exists msg,
    Generator.sortScripts project ["test"; "build"]
      (generator_with [("/project/package.json", JObj [("name", JStr "app")])]
         [])
    = (Throws (TypeError msg),
       generator_with [("/project/package.json", JObj [("name", JStr "app")])]
         []).
Proof.
  apply sortScripts_without_scripts_throws; [discriminate|].
  right. eexists _, _. split; [vm_compute; reflexivity|].
  split; reflexivity.
Defined.





(** ** [extendJson] *)




(** * Further properties *)

(** ** [extendJson] and its two named forms *)



(** How the keys of a merge lie: the target's keys stay where they are,
    and the new names follow in the order of the source. *)
Lemma has_prop_set_prop {A} (k k' : string) (v : A) (o : list (string * A)) :
  has_prop k' (set_prop k v o) = String.eqb k' k || has_prop k' o.
Proof.
  unfold has_prop. rewrite get_prop_set_prop.
  destruct (String.eqb k' k); reflexivity.
Qed.

Lemma keys_set_prop_present {A} (k : string) (v : A) (o : list (string * A)) :
  has_prop k o = true -> keys (set_prop k v o) = keys o.
Proof. intros H. unfold set_prop. rewrite H. apply keys_replace. Qed.






(** X3.  With nothing to merge, [extendJson] still writes: the tree it read
    (an empty object for a missing file), now printed with tabs. *)
Theorem extendJson_nothing_to_merge
    (destinationPath : string -> string) (path : string)
    (customizer : option customizer) (g : generator)
    (obj : list (string * json)) :
  MemFs.readJSON (fs g) (destinationPath path) (JObj []) = JObj obj ->
  Generator.extendJson destinationPath path [] customizer g
  = (Returns tt,
     set_fs <[destinationPath path := {| tree := JObj obj; indent := tab |}]> g).
Proof.
  intros Hread.
  rewrite (extendJson_run destinationPath path [] customizer g obj Hread).
  reflexivity.
Qed.

Lemma extendJson_nothing_to_merge_witness :
  let g := generator_with
             [("/project/package.json", JObj [("name", JStr "app")])] [] in
  fs (Generator.extendJson project "package.json" [] None g).2
    !! "/project/package.json"
  = Some {| tree := JObj [("name", JStr "app")]; indent := tab |}
  /\ fs (Generator.extendJson project "tsconfig.json" [] None g).2
       !! "/project/tsconfig.json"
     = Some {| tree := JObj []; indent := tab |}.
Proof.
  intros g. split.
  - rewrite (extendJson_nothing_to_merge project "package.json" None g
               [("name", JStr "app")] eq_refl).
    vm_compute. reflexivity.
  - rewrite (extendJson_nothing_to_merge project "tsconfig.json" None g []
               eq_refl).
    vm_compute. reflexivity.
Defined.

Lemma readJSON_written path t space store defaults :
  MemFs.readJSON (MemFs.writeJSON path t space store) path defaults = t.
Proof.
  unfold MemFs.readJSON, MemFs.writeJSON. rewrite lookup_insert_eq.
  reflexivity.
Qed.

Lemma readJSON_written_other path other t space store defaults :
  path <> other ->
  MemFs.readJSON (MemFs.writeJSON path t space store) other defaults
  = MemFs.readJSON store other defaults.
Proof.
  intros Hne. unfold MemFs.readJSON, MemFs.writeJSON.
  rewrite lookup_insert_ne by exact Hne. reflexivity.
Qed.

Lemma set_fs_set_fs f f' g : set_fs f (set_fs f' g) = set_fs (fun s => f (f' s)) g.
Proof. reflexivity. Qed.

Lemma set_prop_set_prop {A} (k : string) (v v' : A) (o : list (string * A)) :
  set_prop k v (set_prop k v' o) = set_prop k v o.
Proof.
  unfold set_prop at 1. rewrite has_prop_set_prop, String.eqb_refl. simpl.
  unfold set_prop. destruct (has_prop k o) eqn:Hin.
  - clear Hin. induction o as [|[k0 v0] o IH]; simpl; [reflexivity|].
    destruct (String.eqb_spec k k0) as [->|Hne]; simpl.
    + rewrite String.eqb_refl. reflexivity.
    + destruct (String.eqb_spec k k0); [congruence|]. rewrite IH. reflexivity.
  - assert (Hnone : get_prop k o = None).
    { unfold has_prop in Hin. destruct (get_prop k o); congruence. }
    destruct (array_index k) as [i|].
    + clear Hin. induction o as [|[k0 v0] o IH]; simpl.
      * rewrite String.eqb_refl. reflexivity.
      * simpl in Hnone.
        destruct (String.eqb_spec k k0) as [->|Hne]; [discriminate|].
        destruct (array_index k0) as [j|]; [destruct (j <? i)%N|]; simpl.
        -- destruct (String.eqb_spec k k0); [congruence|].
           rewrite (IH Hnone). reflexivity.
        -- rewrite String.eqb_refl. reflexivity.
        -- rewrite String.eqb_refl. reflexivity.
    + clear Hin. induction o as [|[k0 v0] o IH]; simpl.
      * rewrite String.eqb_refl. reflexivity.
      * simpl in Hnone.
        destruct (String.eqb_spec k k0) as [->|Hne]; [discriminate|].
        rewrite (IH Hnone). reflexivity.
Qed.

(** X4.  [extendJson] is not idempotent on arrays: a second call with the same
    array-valued property appends the incoming elements a second time. *)
Theorem extendJson_twice_appends_twice
    (destinationPath : string -> string) (path key : string) (g : generator)
    (existing : list (string * json)) (a b : list json) :
  MemFs.readJSON (fs g) (destinationPath path) (JObj []) = JObj existing ->
  get_prop key existing = Some (JArr a) ->
  ordinary key = true ->
  let once := Generator.extendJson destinationPath path [(key, JArr b)] None in
  once g
  = (Returns tt,
     set_fs (MemFs.writeJSON (destinationPath path)
               (JObj (set_prop key (JArr (a ++ b)) existing)) tab) g)
  /\ once (once g).2
     = (Returns tt,
        set_fs (MemFs.writeJSON (destinationPath path)
                  (JObj (set_prop key (JArr (a ++ b ++ b)) existing)) tab) g).
Proof.
  intros Hread Hkey _ once.
  assert (Hfirst : once g
    = (Returns tt,
       set_fs (MemFs.writeJSON (destinationPath path)
                 (JObj (set_prop key (JArr (a ++ b)) existing)) tab) g)).
  { unfold once.
    rewrite (extendJson_run destinationPath path _ None g existing Hread).
    unfold mergeWith. rewrite baseMerge_cons. cbn [fst snd].
    rewrite Hkey. reflexivity. }
  split; [exact Hfirst|].
  rewrite Hfirst. cbn [snd]. unfold once.
  rewrite (extendJson_run destinationPath path _ None _
             (set_prop key (JArr (a ++ b)) existing)).
  - unfold mergeWith. rewrite baseMerge_cons. cbn [fst snd].
    rewrite get_prop_set_prop_eq. simpl.
    rewrite set_prop_set_prop, <- app_assoc.
    unfold set_fs, MemFs.writeJSON. simpl. rewrite insert_insert_eq.
    reflexivity.
  - unfold set_fs. simpl. apply readJSON_written.
Qed.

Lemma extendJson_twice_appends_twice_witness :
  let existing := [("name", JStr "app"); ("files", JArr [JStr "lib"])] in
  let g := generator_with [("/project/package.json", JObj existing)] [] in
  let once :=
    Generator.extendJson project "package.json"
      [("files", JArr [JStr "bin"])] None in
  MemFs.readJSON (fs (once (once g).2).2) "/project/package.json" JNull
  = JObj [("name", JStr "app");
          ("files", JArr [JStr "lib"; JStr "bin"; JStr "bin"])].
Proof.
  intros existing g once.
  destruct (extendJson_twice_appends_twice project "package.json" "files" g
              existing [JStr "lib"] [JStr "bin"] eq_refl eq_refl eq_refl)
    as [_ Htwice].
  subst once. cbv zeta in Htwice. rewrite Htwice. vm_compute. reflexivity.
Defined.

Lemma extendJson_returns_inv destinationPath path contents customizer g g' :
  Generator.extendJson destinationPath path contents customizer g
  = (Returns tt, g') ->
  exists obj merged,
    MemFs.readJSON (fs g) (destinationPath path) (JObj []) = JObj obj
    /\ mergeWith obj contents (default Generator.concatArrays customizer)
       = Returns merged
    /\ g' = set_fs (MemFs.writeJSON (destinationPath path) (JObj merged) tab) g.
Proof.
  destruct (MemFs.readJSON (fs g) (destinationPath path) (JObj []))
    as [| | | | |obj] eqn:Hread;
    try (cbv beta iota zeta
           delta [Generator.extendJson this mbind method_bind andThen lift];
         rewrite Hread; discriminate).
  rewrite (extendJson_run destinationPath path contents customizer g obj Hread).
  destruct (mergeWith _ _ _) as [merged| |] eqn:Hm; try discriminate.
  intros H. injection H as <-. eauto.
Qed.

(** X5.  [extendPackage] and [extendTsConfig] work on different files, so the
    order of the two calls does not matter. *)
Theorem extendPackage_extendTsConfig_commute
    (destinationPath : string -> string)
    (forPackage forTsConfig : list (string * json))
    (c1 c2 : option customizer) (g gp gt : generator) :
  destinationPath "package.json" <> destinationPath "tsconfig.json" ->
  Generator.extendPackage destinationPath forPackage c1 g = (Returns tt, gp) ->
  Generator.extendTsConfig destinationPath forTsConfig c2 g = (Returns tt, gt) ->
  Generator.extendTsConfig destinationPath forTsConfig c2 gp
  = Generator.extendPackage destinationPath forPackage c1 gt
  /\ (Generator.extendTsConfig destinationPath forTsConfig c2 gp).1 = Returns tt.
Proof.
  unfold Generator.extendPackage, Generator.extendTsConfig.
  intros Hne Hp Ht.
  apply extendJson_returns_inv in Hp as (op & mp & Hrp & Hmp & ->).
  apply extendJson_returns_inv in Ht as (ot & mt & Hrt & Hmt & ->).
  rewrite (extendJson_run destinationPath "tsconfig.json" _ _ _ ot).
  2:{ unfold set_fs. simpl. rewrite readJSON_written_other by exact Hne.
      exact Hrt. }
  rewrite (extendJson_run destinationPath "package.json" _ _ _ op).
  2:{ unfold set_fs. simpl. rewrite readJSON_written_other by congruence.
      exact Hrp. }
  rewrite Hmp, Hmt. split; [|reflexivity].
  f_equal. unfold set_fs, MemFs.writeJSON. simpl. f_equal.
  apply insert_insert_ne. congruence.
Qed.

Lemma extendPackage_extendTsConfig_commute_witness :
  let g := generator_with
             [("/project/package.json", JObj [("files", JArr [JStr "lib"])])]
             [] in
  let forPackage := [("files", JArr [JStr "bin"])] in
  let forTsConfig := [("include", JArr [JStr "src"])] in
  Generator.extendTsConfig project forTsConfig None
    (Generator.extendPackage project forPackage None g).2
  = Generator.extendPackage project forPackage None
      (Generator.extendTsConfig project forTsConfig None g).2.
Proof.
  intros g forPackage forTsConfig.
  refine (proj1 (extendPackage_extendTsConfig_commute project forPackage
                   forTsConfig None None g _ _ _ _ _)).
  - vm_compute. discriminate.
  - reflexivity.
  - reflexivity.
Defined.
(** ** [addScripts] *)

Lemma scripts_customizer_defers (prepend : value) src :
  (if truthy (Some (default (JBool false) prepend))
   then Generator.prependScripts else Generator.appendScripts) None src = None.
Proof. destruct (truthy _); reflexivity. Qed.

(** X6.  Into a manifest that has no [scripts] property yet (a missing file
    among them), [addScripts] puts the incoming mapping as it is, behind
    the properties the manifest has, whichever way [prepend] points. *)
Theorem addScripts_without_section
    (destinationPath : string -> string) (scripts : list (string * json))
    (prepend : value) (g : generator) (pkg : list (string * json)) :
  MemFs.readJSON (fs g) (destinationPath "package.json") (JObj []) = JObj pkg ->
  get_prop "scripts" pkg = None ->
  wf_json (JObj scripts) = true ->
  Generator.addScripts destinationPath scripts prepend g
  = (Returns tt,
     set_fs (MemFs.writeJSON (destinationPath "package.json")
               (JObj (pkg ++ [("scripts", JObj scripts)])) tab) g).
Proof.
  intros Hread Hnone Hwf.
  unfold Generator.addScripts, Generator.extendPackage.
  pose proof (scripts_customizer_defers prepend) as Hc.
  set (c := if truthy (Some (default (JBool false) prepend))
            then Generator.prependScripts else Generator.appendScripts) in *.
  rewrite (extendJson_run destinationPath "package.json" _ _ g pkg Hread).
  change (default Generator.concatArrays
            (Some (default Generator.concatArrays (Some c)))) with c.
  unfold mergeWith. rewrite baseMerge_cons. cbn [fst snd].
  rewrite Hnone, (mergeValue_copy c Hc _ Hwf).
  simpl. rewrite (set_prop_fresh_plain _ _ _ Hnone eq_refl). reflexivity.
Qed.

Lemma addScripts_without_section_witness :
  let scripts := [("build", JStr "tsc"); ("test", JStr "mocha")] in
  let g := generator_with [("/project/tsconfig.json", JObj [])] [] in
  Generator.addScripts project scripts (Some (JBool true)) g
  = (Returns tt,
     set_fs (MemFs.writeJSON (project "package.json")
               (JObj ([] ++ [("scripts", JObj scripts)])) tab) g).
Proof.
  intros scripts g.
  exact (addScripts_without_section project scripts (Some (JBool true)) g []
           eq_refl eq_refl eq_refl).
Defined.

(** X7.  [addScripts] changes the [scripts] property of the manifest and
    nothing else in it: the other properties keep their values, and when
    the manifest had a [scripts] object the order of its properties is as
    it was. *)
Theorem addScripts_touches_only_scripts
    (destinationPath : string -> string) (scripts : list (string * json))
    (prepend : value) (g : generator) (pkg existing : list (string * json)) :
  MemFs.readJSON (fs g) (destinationPath "package.json") (JObj []) = JObj pkg ->
  get_prop "scripts" pkg = Some (JObj existing) ->
  wf_props scripts = true ->
  forallb (fun kv => isString (Some (snd kv))) scripts = true ->
  exists pkg',
    manifest_after destinationPath
      (Generator.addScripts destinationPath scripts prepend g)
    = Some {| tree := JObj pkg'; indent := tab |}
    /\ keys pkg' = keys pkg
    /\ forall k, k <> "scripts" -> get_prop k pkg' = get_prop k pkg.
Proof.
  intros Hread Hsection Hwf Hstr.
  assert (Hd : distinct (keys scripts) = true).
  { unfold wf_props in Hwf. rewrite !andb_true_iff in Hwf. tauto. }
  destruct (Generator_addScripts_combines destinationPath g pkg existing
              scripts prepend Hread) as (merged & Hrun & _);
    [rewrite Hsection; reflexivity | exact Hd | exact Hstr |].
  exists (set_prop "scripts" (JObj merged) pkg). rewrite Hrun.
  split; [|split].
  - unfold manifest_after, set_fs, MemFs.writeJSON. simpl.
    apply lookup_insert_eq.
  - apply keys_set_prop_present. unfold has_prop. rewrite Hsection.
    reflexivity.
  - intros k Hk. apply get_prop_set_prop_ne. congruence.
Qed.

Lemma addScripts_touches_only_scripts_witness :
  let pkg := [("name", JStr "app");
              ("scripts", JObj [("build", JStr "lint")]);
              ("license", JStr "MIT")] in
  let g := generator_with [("/project/package.json", JObj pkg)] [] in
  exists pkg',
    manifest_after project
      (Generator.addScripts project [("build", JStr "tsc")] None g)
    = Some {| tree := JObj pkg'; indent := tab |}
    /\ keys pkg' = ["name"; "scripts"; "license"]
    /\ get_prop "license" pkg' = Some (JStr "MIT").
Proof.
  intros pkg g.
  destruct (addScripts_touches_only_scripts project [("build", JStr "tsc")]
              None g pkg [("build", JStr "lint")] eq_refl eq_refl eq_refl
              eq_refl) as (pkg' & Hafter & Hkeys & Hrest).
  exists pkg'. split; [exact Hafter|]. split; [exact Hkeys|].
  apply Hrest. discriminate.
Defined.

(** X8.  Two calls of [addScripts] in a row, as two composed generators make
    them: a script all three know ends as [e && a && b], one that only the
    two calls know as [a && b], and one the second call does not name
    stays as the first call left it. *)
Theorem addScripts_twice_accumulates
    (destinationPath : string -> string)
    (first second : list (string * json)) (g : generator)
    (pkg existing : list (string * json)) :
  MemFs.readJSON (fs g) (destinationPath "package.json") (JObj []) = JObj pkg ->
  object_target (get_prop "scripts" pkg) = Returns existing ->
  wf_props first = true ->
  forallb (fun kv => isString (Some (snd kv))) first = true ->
  wf_props second = true ->
  forallb (fun kv => isString (Some (snd kv))) second = true ->
  exists once twice,
    Generator.addScripts destinationPath second None
      (Generator.addScripts destinationPath first None g).2
    = (Returns tt,
       set_fs (MemFs.writeJSON (destinationPath "package.json")
                 (JObj (set_prop "scripts" (JObj twice) pkg)) tab) g)
    /\ (Generator.addScripts destinationPath first None g).1 = Returns tt
    /\ scripts_after destinationPath
         (Generator.addScripts destinationPath first None g) = Some once
    /\ (forall name e a b,
           get_prop name existing = Some (JStr e) ->
           get_prop name first = Some (JStr a) ->
           get_prop name second = Some (JStr b) ->
           get_prop name twice
           = Some (JStr ((e +:+ " && " +:+ a) +:+ " && " +:+ b)))
    /\ (forall name a b,
           isString (get_prop name existing) = false ->
           get_prop name first = Some (JStr a) ->
           get_prop name second = Some (JStr b) ->
           get_prop name twice = Some (JStr (a +:+ " && " +:+ b)))
    /\ (forall name,
           get_prop name second = None ->
           get_prop name twice = get_prop name once).
Proof.
  intros Hread Htarget Hwf1 Hs1 Hwf2 Hs2.
  assert (Hd1 : distinct (keys first) = true).
  { unfold wf_props in Hwf1. rewrite !andb_true_iff in Hwf1. tauto. }
  assert (Hd2 : distinct (keys second) = true).
  { unfold wf_props in Hwf2. rewrite !andb_true_iff in Hwf2. tauto. }
  destruct (Generator_addScripts_combines destinationPath g pkg existing first
              None Hread Htarget Hd1 Hs1)
    as (once & Hrun1 & Hboth1 & Hnew1 & _).
  set (g1 := set_fs (MemFs.writeJSON (destinationPath "package.json")
                       (JObj (set_prop "scripts" (JObj once) pkg)) tab) g)
    in Hrun1.
  assert (Hread1 : MemFs.readJSON (fs g1) (destinationPath "package.json")
                     (JObj [])
                   = JObj (set_prop "scripts" (JObj once) pkg)).
  { unfold g1, set_fs. simpl. apply readJSON_written. }
  destruct (Generator_addScripts_combines destinationPath g1 _ once second
              None Hread1) as (twice & Hrun2 & Hboth2 & _ & Hkeep2);
    [rewrite get_prop_set_prop_eq; reflexivity | exact Hd2 | exact Hs2 |].
  exists once, twice. rewrite Hrun1. cbn [fst snd].
  split; [|split; [reflexivity|split; [|split; [|split]]]].
  - rewrite Hrun2. rewrite set_prop_set_prop.
    unfold g1, set_fs, MemFs.writeJSON. simpl. rewrite insert_insert_eq.
    reflexivity.
  - unfold scripts_after, manifest_after, g1, set_fs, MemFs.writeJSON. simpl.
    rewrite lookup_insert_eq. simpl. rewrite get_prop_set_prop_eq.
    reflexivity.
  - intros name e a b He Ha Hb.
    apply (Hboth2 name (e +:+ " && " +:+ a) b); [|exact Hb].
    exact (Hboth1 name e a He Ha).
  - intros name a b He Ha Hb.
    apply (Hboth2 name a b); [|exact Hb]. exact (Hnew1 name a He Ha).
  - exact Hkeep2.
Qed.

Lemma addScripts_twice_accumulates_witness :
  let pkg := [("scripts", JObj [("build", JStr "lint")])] in
  let g := generator_with [("/project/package.json", JObj pkg)] [] in
  exists twice,
    Generator.addScripts project [("build", JStr "rollup -c")] None
      (Generator.addScripts project
         [("build", JStr "tsc"); ("test", JStr "mocha")] None g).2
    = (Returns tt,
       set_fs (MemFs.writeJSON (project "package.json")
                 (JObj (set_prop "scripts" (JObj twice) pkg)) tab) g)
    /\ get_prop "build" twice = Some (JStr "lint && tsc && rollup -c").
Proof.
  intros pkg g.
  destruct (addScripts_twice_accumulates project
              [("build", JStr "tsc"); ("test", JStr "mocha")]
              [("build", JStr "rollup -c")] g pkg
              [("build", JStr "lint")] eq_refl eq_refl eq_refl eq_refl
              eq_refl eq_refl) as (once & twice & Hrun & _ & _ & Hall & _).
  exists twice. split; [exact Hrun|].
  exact (Hall "build" "lint" "tsc" "rollup -c" eq_refl eq_refl eq_refl).
Defined.
(** ** [sortScripts] *)

Lemma assign_next {A} (s : list (string * A)) : forall o,
  wf_props (o ++ s) = true -> assign o s = o ++ s.
Proof.
  unfold assign. induction s as [|[k v] s IH]; intros o Hwf; simpl.
  - rewrite app_nil_r. reflexivity.
  - rewrite (set_prop_next _ _ _ _ Hwf), IH; rewrite <- app_assoc;
      [reflexivity | exact Hwf].
Qed.

Lemma set_prop_same {A} (k : string) (v : A) (o : list (string * A)) :
  get_prop k o = Some v -> set_prop k v o = o.
Proof.
  intros Hk. unfold set_prop, has_prop. rewrite Hk.
  induction o as [|[k0 v0] o IH]; simpl in *; [discriminate|].
  destruct (String.eqb_spec k k0) as [->|Hne]; [congruence|].
  rewrite (IH Hk). reflexivity.
Qed.

Lemma sort_loop_absent names : forall sorted (scripts : list (string * json)),
  forallb (fun n => negb (has_prop n scripts)) names = true ->
  fold_left Generator.sort_step names (sorted, scripts) = (sorted, scripts).
Proof.
  induction names as [|n names IH]; intros sorted scripts Habsent; simpl;
    [reflexivity|].
  simpl in Habsent. apply andb_true_iff in Habsent as [Hn Habsent].
  unfold has_prop in Hn. destruct (get_prop n scripts); [discriminate|].
  apply IH, Habsent.
Qed.

(** X9.  Names that are not among the scripts are passed over: when none of
    the names is (no names at all, for one), the manifest is written back
    with tabs and is otherwise as it was, order included. *)
Theorem sortScripts_absent_names_change_nothing
    (destinationPath : string -> string) (names : list string)
    (g : generator) (file : json_file) (pkg scripts : list (string * json)) :
  fs g !! destinationPath "package.json" = Some file ->
  tree file = JObj pkg ->
  get_prop "scripts" pkg = Some (JObj scripts) ->
  wf_props scripts = true ->
  forallb (fun n => negb (has_prop n scripts)) names = true ->
  Generator.sortScripts destinationPath names g
  = (Returns tt,
     set_fs <[destinationPath "package.json"
              := {| tree := JObj pkg; indent := tab |}]> g).
Proof.
  intros Hfile Htree Hscripts Hwf Habsent.
  rewrite (sortScripts_run destinationPath names g file pkg scripts
             Hfile Htree Hscripts).
  rewrite (sort_loop_absent names [] scripts Habsent).
  rewrite (assign_next scripts [] Hwf). simpl app.
  rewrite (set_prop_same _ _ _ Hscripts). reflexivity.
Qed.

Lemma sortScripts_absent_names_change_nothing_witness :
  let pkg := [("name", JStr "app");
              ("scripts", JObj [("2", JStr "b"); ("test", JStr "z")])] in
  let g := generator_with [("/project/package.json", JObj pkg)] [] in
  Generator.sortScripts project ["build"; "lint"] g
  = (Returns tt,
     set_fs <[project "package.json"
              := {| tree := JObj pkg; indent := tab |}]> g).
Proof.
  intros pkg g.
  exact (sortScripts_absent_names_change_nothing project ["build"; "lint"] g
           {| tree := JObj pkg; indent := "  " |} pkg
           [("2", JStr "b"); ("test", JStr "z")]
           eq_refl eq_refl eq_refl eq_refl eq_refl).
Defined.

(** X10.  Without names there is no membership test, and nothing to throw:
    on a manifest that has no [scripts] property (a missing file among
    them), [sortScripts([])] writes the manifest with an empty [scripts]
    object added at its end. *)
Theorem sortScripts_no_names_no_scripts
    (destinationPath : string -> string) (g : generator)
    (pkg : list (string * json)) :
  MemFs.readJSON (fs g) (destinationPath "package.json") (JObj []) = JObj pkg ->
  get_prop "scripts" pkg = None ->
  Generator.sortScripts destinationPath [] g
  = (Returns tt,
     set_fs (MemFs.writeJSON (destinationPath "package.json")
               (JObj (pkg ++ [("scripts", JObj [])])) tab) g).
Proof.
  intros Hread Hnone.
  cbv beta iota zeta
    delta [Generator.sortScripts this mbind method_bind andThen].
  rewrite Hread, Hnone. unfold assign. simpl fold_left.
  rewrite (set_prop_fresh_plain _ _ _ Hnone eq_refl). reflexivity.
Qed.

Lemma sortScripts_no_names_no_scripts_witness :
  let g := generator_with [] [] in
  Generator.sortScripts project [] g
  = (Returns tt,
     set_fs (MemFs.writeJSON (project "package.json")
               (JObj ([] ++ [("scripts", JObj [])])) tab) g).
Proof.
  intros g.
  exact (sortScripts_no_names_no_scripts project g [] eq_refl eq_refl).
Defined.

Lemma keys_insert_index {A} (i : N) (k : string) (v : A)
    (o : list (string * A)) :
  keys (insert_index i k v o) ≡ₚ k :: keys o.
Proof.
  induction o as [|[k0 v0] o IH]; simpl; [reflexivity|].
  destruct (array_index k0) as [j|]; [destruct (j <? i)%N|]; simpl;
    try reflexivity.
  rewrite IH. apply Permutation_swap.
Qed.

Lemma keys_set_prop_fresh {A} (k : string) (v : A) (o : list (string * A)) :
  has_prop k o = false -> keys (set_prop k v o) ≡ₚ k :: keys o.
Proof.
  intros Hk. unfold set_prop. rewrite Hk.
  destruct (array_index k) as [i|]; [apply keys_insert_index|].
  unfold keys. rewrite map_app. simpl.
  symmetry. apply Permutation_cons_append.
Qed.

Lemma distinct_set_prop {A} (k : string) (v : A) (o : list (string * A)) :
  distinct (keys o) = true -> distinct (keys (set_prop k v o)) = true.
Proof.
  intros Hd. destruct (has_prop k o) eqn:Hk.
  - rewrite (keys_set_prop_present _ _ _ Hk). exact Hd.
  - apply distinct_NoDup. rewrite (keys_set_prop_fresh _ v _ Hk).
    constructor; [|apply distinct_NoDup, Hd].
    intros Hin. apply has_prop_spec in Hin. congruence.
Qed.

Lemma distinct_assign {A} (s : list (string * A)) : forall o,
  distinct (keys o) = true -> distinct (keys (assign o s)) = true.
Proof.
  unfold assign. induction s as [|[k v] s IH]; intros o Hd; simpl;
    [exact Hd|].
  apply IH, distinct_set_prop, Hd.
Qed.


(** What the loop of [sortScripts] leaves on either side, whatever the
    names are. *)
Lemma sort_loop_lookup names :
  forall (sorted scripts sorted' rest : list (string * json)),
  fold_left Generator.sort_step names (sorted, scripts) = (sorted', rest) ->
  (forall k, has_prop k sorted = true -> get_prop k scripts = None) ->
  distinct (keys sorted) = true ->
  (forall k, get_prop k rest
             = if mentions names k then None else get_prop k scripts)
  /\ (forall k, get_prop k sorted'
                = match get_prop k sorted with
                  | Some v => Some v
                  | None => if mentions names k then get_prop k scripts
                            else None
                  end)
  /\ rest = List.filter (fun kv => negb (mentions names (fst kv))) scripts
  /\ distinct (keys sorted') = true.
Proof.
  induction names as [|n names IH];
    intros sorted scripts sorted' rest Hfold Hapart Hd; simpl in Hfold.
  - injection Hfold as <- <-. repeat split; try reflexivity.
    + intros k. destruct (get_prop k sorted); reflexivity.
    + symmetry. apply forallb_filter_id, forallb_forall. reflexivity.
    + exact Hd.
  - destruct (get_prop n scripts) as [v|] eqn:Hn.
    + assert (Hfresh : has_prop n sorted = false).
      { destruct (has_prop n sorted) eqn:E; [|reflexivity].
        rewrite (Hapart _ E) in Hn. discriminate. }
      assert (Hapart' : forall k,
                 has_prop k (set_prop n v sorted) = true ->
                 get_prop k (delete_prop n scripts) = None).
      { intros k Hk. rewrite has_prop_set_prop in Hk.
        rewrite get_prop_delete_prop.
        destruct (String.eqb k n); [reflexivity|].
        apply Hapart, Hk. }
      destruct (IH _ _ _ _ Hfold Hapart' (distinct_set_prop _ _ _ Hd))
        as (Hrest & Hsorted & Hfilter & Hd').
      repeat split.
      * intros k. rewrite Hrest, get_prop_delete_prop. simpl.
        destruct (String.eqb_spec k n) as [->|Hne]; simpl;
          [destruct (mentions names n)|]; reflexivity.
      * intros k. rewrite Hsorted, get_prop_set_prop, get_prop_delete_prop.
        simpl. destruct (String.eqb_spec k n) as [->|Hne]; simpl.
        -- unfold has_prop in Hfresh.
           destruct (get_prop n sorted); [discriminate|].
           symmetry. exact Hn.
        -- reflexivity.
      * rewrite Hfilter. unfold delete_prop. rewrite filter_filter.
        apply List.filter_ext. intros [k0 v0]. simpl.
        rewrite (String.eqb_sym k0 n).
        destruct (String.eqb n k0); reflexivity.
      * exact Hd'.
    + destruct (IH _ _ _ _ Hfold Hapart Hd) as (Hrest & Hsorted & Hfilter & Hd').
      repeat split.
      * intros k. rewrite Hrest. simpl.
        destruct (String.eqb_spec k n) as [->|Hne]; simpl; [|reflexivity].
        rewrite Hn. destruct (mentions names n); reflexivity.
      * intros k. rewrite Hsorted. simpl.
        destruct (String.eqb_spec k n) as [->|Hne]; simpl; [|reflexivity].
        rewrite Hn. destruct (mentions names n); reflexivity.
      * rewrite Hfilter. apply List.filter_ext_in. intros [k0 v0] Hin. simpl.
        destruct (String.eqb_spec k0 n) as [->|Hne]; [|reflexivity].
        exfalso. apply get_prop_None in Hn. apply Hn.
        apply (in_map fst) in Hin. exact Hin.
      * exact Hd'.
Qed.



Lemma pick_ext names (a b : list (string * json)) :
  (forall k, get_prop k a = get_prop k b) -> pick names a = pick names b.
Proof.
  intros Hsame. induction names as [|n names IH]; simpl; [reflexivity|].
  rewrite Hsame, IH. reflexivity.
Qed.

Lemma filter_unmentioned_pick names picked (scripts : list (string * json)) :
  (forall n, In n picked -> mentions names n = true) ->
  List.filter (fun kv => negb (mentions names (fst kv))) (pick picked scripts)
  = [].
Proof.
  induction picked as [|n picked IH]; intros Hall; simpl; [reflexivity|].
  destruct (get_prop n scripts); simpl.
  - rewrite (Hall n) by (left; reflexivity). simpl.
    apply IH. intros m Hm. apply Hall. right. exact Hm.
  - apply IH. intros m Hm. apply Hall. right. exact Hm.
Qed.

Lemma ordered_plain {A} (o : list (string * A)) lo :
  forallb (fun k => negb (is_index k)) (keys o) = true ->
  ordered_from lo o = true.
Proof.
  destruct o as [|[k v] o]; simpl; [reflexivity|].
  intros H. apply andb_true_iff in H as [Hk Ho].
  unfold is_index in Hk. destruct (array_index k); [discriminate|].
  clear Hk. induction o as [|[k0 v0] o IH]; simpl in *; [reflexivity|].
  apply andb_true_iff in Ho as [Hk0 Ho]. rewrite Hk0, (IH Ho). reflexivity.
Qed.

(** The scripts [sortScripts] writes are again a well-formed mapping
    without array-index names. *)
Lemma sorted_scripts_wf names (scripts : list (string * json)) :
  wf_props scripts = true ->
  forallb (fun k => negb (is_index k)) (keys scripts) = true ->
  let sorted := pick (first_occurrences names) scripts
                ++ List.filter (fun kv => negb (mentions names (fst kv)))
                     scripts in
  (forall k, get_prop k sorted = get_prop k scripts)
  /\ wf_props sorted = true
  /\ forallb (fun k => negb (is_index k)) (keys sorted) = true.
Proof.
  intros Hwf Hplain sorted.
  assert (Hsame : forall k, get_prop k sorted = get_prop k scripts).
  { intros k. unfold sorted. rewrite get_prop_app, get_prop_pick.
    rewrite mentions_first_occurrences.
    rewrite (get_prop_filter (fun k => negb (mentions names k))).
    destruct (mentions names k); simpl; [|reflexivity].
    destruct (get_prop k scripts); reflexivity. }
  assert (Hin : forall k, In k (keys sorted) -> In k (keys scripts)).
  { intros k. rewrite <- !has_prop_spec. unfold has_prop. rewrite Hsame.
    auto. }
  assert (Hplain' : forallb (fun k => negb (is_index k)) (keys sorted) = true).
  { rewrite forallb_forall in *. intros k Hk. apply Hplain, Hin, Hk. }
  split; [exact Hsame|]. split; [|exact Hplain'].
  unfold wf_props in *. rewrite !andb_true_iff in *.
  destruct Hwf as [[Hd _] Hord]. split; [split|].
  - destruct (fold_left Generator.sort_step names ([], scripts))
      as [sorted' rest] eqn:Hfold.
    pose proof Hfold as Hloop.
    rewrite (sort_loop names [] scripts Hplain) in Hloop by (intros k []).
    injection Hloop as <- <-.
    destruct (sort_loop_lookup names [] scripts _ _ Hfold)
      as (_ & _ & _ & Hd'); [discriminate | reflexivity |].
    simpl app in Hd'. unfold sorted.
    rewrite <- (assign_append
                  (List.filter (fun kv => negb (mentions names (fst kv)))
                     scripts)
                  (pick (first_occurrences names) scripts)).
    + apply distinct_assign, Hd'.
    + rewrite (keys_filter (fun k => negb (mentions names k))).
      apply distinct_NoDup, List.NoDup_filter, distinct_NoDup, Hd.
    + rewrite (keys_filter (fun k => negb (mentions names k))).
      rewrite forallb_forall in *. intros k Hk.
      apply List.filter_In in Hk as [Hk _]. auto.
    + intros k Hk.
      rewrite (keys_filter (fun k => negb (mentions names k))) in Hk.
      apply List.filter_In in Hk as [_ Hk].
      rewrite get_prop_pick, mentions_first_occurrences.
      apply negb_true_iff in Hk. rewrite Hk. reflexivity.
  - apply ordered_plain, Hplain'.
  - rewrite forallb_forall in *. intros k Hk. apply Hord, Hin, Hk.
Qed.

(** X12.  Sorting twice by the same names is sorting once (script names that
    are array indices apart). *)
Theorem sortScripts_idempotent
    (destinationPath : string -> string) (names : list string)
    (g : generator) (file : json_file) (pkg scripts : list (string * json)) :
  fs g !! destinationPath "package.json" = Some file ->
  tree file = JObj pkg ->
  get_prop "scripts" pkg = Some (JObj scripts) ->
  wf_props scripts = true ->
  forallb (fun k => negb (is_index k)) (keys scripts) = true ->
  Generator.sortScripts destinationPath names
    (Generator.sortScripts destinationPath names g).2
  = Generator.sortScripts destinationPath names g
  /\ (Generator.sortScripts destinationPath names g).1 = Returns tt.
Proof.
  intros Hfile Htree Hscripts Hwf Hplain.
  destruct (sortScripts_plain_names destinationPath names g file pkg scripts
              Hfile Htree Hscripts Hwf Hplain) as [Hrun _].
  destruct (sorted_scripts_wf names scripts Hwf Hplain)
    as (Hsame & Hwf1 & Hplain1).
  set (sorted := pick (first_occurrences names) scripts
                 ++ List.filter (fun kv => negb (mentions names (fst kv)))
                      scripts) in *.
  rewrite Hrun. cbn [fst snd]. split; [|reflexivity].
  set (pkg1 := set_prop "scripts" (JObj sorted) pkg).
  set (g1 := set_fs (MemFs.writeJSON (destinationPath "package.json")
                       (JObj pkg1) tab) g).
  destruct (sortScripts_plain_names destinationPath names g1
              {| tree := JObj pkg1; indent := tab |} pkg1 sorted)
    as [Hrun1 _]; try assumption.
  - unfold g1, set_fs, MemFs.writeJSON. simpl. apply lookup_insert_eq.
  - reflexivity.
  - unfold pkg1. apply get_prop_set_prop_eq.
  - rewrite Hrun1. f_equal.
    assert (Hagain :
      pick (first_occurrences names) sorted
      ++ List.filter (fun kv => negb (mentions names (fst kv))) sorted
      = sorted).
    { rewrite (pick_ext _ _ _ Hsame). unfold sorted. f_equal.
      rewrite List.filter_app, filter_unmentioned_pick, filter_filter.
      - simpl. apply List.filter_ext.
        intros kv. destruct (negb _); reflexivity.
      - intros n Hn. rewrite <- mentions_first_occurrences.
        apply mentions_spec, Hn. }
    rewrite Hagain. unfold pkg1. rewrite set_prop_set_prop.
    unfold g1, set_fs, MemFs.writeJSON. simpl. rewrite insert_insert_eq.
    reflexivity.
Qed.

Lemma sortScripts_idempotent_witness :
  let scripts := [("lint", JStr "x"); ("build", JStr "y"); ("test", JStr "z")] in
  let pkg := [("name", JStr "app"); ("scripts", JObj scripts)] in
  let g := generator_with [("/project/package.json", JObj pkg)] [] in
  Generator.sortScripts project ["test"; "build"; "test"]
    (Generator.sortScripts project ["test"; "build"; "test"] g).2
  = Generator.sortScripts project ["test"; "build"; "test"] g.
Proof.
  intros scripts pkg g.
  exact (proj1 (sortScripts_idempotent project ["test"; "build"; "test"] g
                  {| tree := JObj pkg; indent := "  " |} pkg scripts
                  eq_refl eq_refl eq_refl eq_refl eq_refl)).
Defined.


(** ** [OptionPrompt] and the prompting task *)

Lemma prompted_app tr tr' : prompted (tr ++ tr') = prompted tr ++ prompted tr'.
Proof.
  induction tr as [|[n|n v] tr IH]; simpl; [reflexivity| |exact IH].
  rewrite IH. reflexivity.
Qed.

(** The state [prompt] leaves: one of three. *)
Lemma prompt_cases ask config g :
  let name := Config.name config in
  let g1 := (OptionPrompt.prompt ask config g).2 in
  (OptionPrompt.prompt ask config g).1 = Returns tt
  /\ (g1 = g
      \/ g1 = set_options <[name := Config.whenProhibited config]> g
      \/ g1 = set_options <[name := ask (OptionPrompt.question config g)]>
                (log (Prompted name) g)).
Proof.
  intros name g1. subst g1. split; [apply prompt_returns|].
  destruct (OptionPrompt.isAllowed config g) eqn:Hal.
  - destruct (option_value g (Config.name config)) eqn:Hv.
    + rewrite (prompt_provided _ _ _ _ Hal Hv). auto.
    + rewrite (prompt_missing _ _ _ Hal Hv). auto.
  - rewrite (prompt_prohibited _ _ _ Hal). auto.
Qed.

Lemma resolve_as_steps ask config g :
  OptionPrompt.resolve ask config g
  = OptionPrompt.validate config (OptionPrompt.prompt ask config g).2.
Proof.
  unfold OptionPrompt.resolve.
  cbv beta iota zeta delta [mbind method_bind andThen].
  pose proof (prompt_returns ask config g) as Hret.
  destruct (OptionPrompt.prompt ask config g) as [o g']. simpl in Hret.
  subst o. reflexivity.
Qed.

Lemma validate_cases config g :
  let r := OptionPrompt.validate config g in
  r.2 = g
  \/ r.2 = log (Validated (Config.name config)
                  (option_value g (Config.name config))) g.
Proof.
  destruct (Config.validate config) as [validator|] eqn:Hv.
  - right. rewrite (validate_run config validator g Hv). reflexivity.
  - left. rewrite (validate_absent config g Hv). reflexivity.
Qed.

(** X14.  [resolve] is about one option: it leaves the other options, the file
    store and the registered descriptors alone, only ever adds to the
    trace, and without a validator it cannot end the run. *)
Theorem resolve_touches_one_option
    (ask : Question.t -> value) (config : Config.t) (g : generator)
    (other : string) :
  other <> Config.name config ->
  let r := OptionPrompt.resolve ask config g in
  options r.2 !! other = options g !! other
  /\ fs r.2 = fs g
  /\ _optionPrompts r.2 = _optionPrompts g
  /\ (exists events, trace r.2 = trace g ++ events)
  /\ (Config.validate config = None -> r.1 = Returns tt).
Proof.
  intros Hother r. subst r. rewrite resolve_as_steps.
  destruct (prompt_cases ask config g) as [_ Hg1].
  cbv zeta in Hg1.
  remember (OptionPrompt.prompt ask config g).2 as g1 eqn:Eg1. clear Eg1.
  assert (Hstep : options g1 !! other = options g !! other
                  /\ fs g1 = fs g /\ _optionPrompts g1 = _optionPrompts g
                  /\ exists events, trace g1 = trace g ++ events).
  { destruct Hg1 as [Hg1 | [Hg1 | Hg1]]; subst g1.
    - repeat split. exists []. rewrite app_nil_r. reflexivity.
    - repeat split.
      + simpl. apply lookup_insert_ne. congruence.
      + exists []. rewrite app_nil_r. reflexivity.
    - repeat split.
      + simpl. apply lookup_insert_ne. congruence.
      + eexists. reflexivity. }
  destruct Hstep as (Hopts & Hfs & Hreg & events & Htrace).
  split; [|split; [|split; [|split]]].
  - destruct (validate_cases config g1) as [H | H]; rewrite H; exact Hopts.
  - destruct (validate_cases config g1) as [H | H]; rewrite H; exact Hfs.
  - destruct (validate_cases config g1) as [H | H]; rewrite H; exact Hreg.
  - destruct (validate_cases config g1) as [H | H]; rewrite H.
    + eauto.
    + simpl. rewrite Htrace, <- app_assoc. eauto.
  - intros Hv. rewrite (validate_absent config g1 Hv). reflexivity.
Qed.

Lemma resolve_touches_one_option_witness :
  let config := descriptor "license" "input" None None None in
  let g := generator_with [] [("name", Some (JStr "app"))] in
  let r := OptionPrompt.resolve (answers_with "MIT") config g in
  options r.2 !! "name" = options g !! "name" /\ r.1 = Returns tt.
Proof.
  intros config g r.
  destruct (resolve_touches_one_option (answers_with "MIT") config g "name")
    as (Hopts & _ & _ & _ & Hret).
  - discriminate.
  - split; [exact Hopts | exact (Hret eq_refl)].
Defined.




(** X17.  Asking is done once: after [prompt], a second [prompt] for the same
    descriptor changes nothing and puts no question, as long as the answer
    given was a defined value and [allowed] still says the same. *)
Theorem prompt_twice_is_prompt_once
    (ask : Question.t -> value) (config : Config.t) (g : generator) :
  let g1 := (OptionPrompt.prompt ask config g).2 in
  OptionPrompt.isAllowed config g1 = OptionPrompt.isAllowed config g ->
  ask (OptionPrompt.question config g) <> None ->
  OptionPrompt.prompt ask config g1 = (Returns tt, g1).
Proof.
  intros g1 Hsame Hanswer. subst g1.
  destruct (OptionPrompt.isAllowed config g) eqn:Hal.
  - destruct (option_value g (Config.name config)) as [v|] eqn:Hv.
    + rewrite (prompt_provided _ _ _ _ Hal Hv) in *. cbn [snd] in *.
      apply (prompt_provided _ _ _ v Hal Hv).
    + rewrite (prompt_missing _ _ _ Hal Hv) in *. cbn [snd] in *.
      destruct (ask (OptionPrompt.question config g)) as [a|] eqn:Ha;
        [|contradiction].
      apply (prompt_provided _ _ _ a Hsame).
      rewrite option_value_set. reflexivity.
  - rewrite (prompt_prohibited _ _ _ Hal) in *. cbn [snd] in *.
    rewrite (prompt_prohibited _ _ _ Hsame). f_equal.
    unfold set_options. simpl. rewrite insert_insert_eq. reflexivity.
Qed.

Lemma prompt_twice_is_prompt_once_witness :
  let config := descriptor "license" "input" None None None in
  let g := generator_with [] [] in
  let g1 := (OptionPrompt.prompt (answers_with "MIT") config g).2 in
  OptionPrompt.prompt (answers_with "MIT") config g1 = (Returns tt, g1)
  /\ trace g1 = [Prompted "license"].
Proof.
  intros config g g1. split; [|reflexivity].
  apply (prompt_twice_is_prompt_once (answers_with "MIT") config g);
    [reflexivity | discriminate].
Defined.

Lemma prompting_loop_app ask before after g :
  Generator.prompting_loop ask (before ++ after) g
  = match Generator.prompting_loop ask before g with
    | (Returns _, g1) => Generator.prompting_loop ask after g1
    | (Throws e, g1) => (Throws e, g1)
    | (Unmodelled, g1) => (Unmodelled, g1)
    end.
Proof.
  revert g. induction before as [|config before IH]; intros g; simpl.
  - reflexivity.
  - cbv beta iota zeta delta [mbind method_bind andThen].
    destruct (OptionPrompt.resolve ask config g) as [[[]| |] g1];
      [apply IH | reflexivity | reflexivity].
Qed.

Lemma resolve_keeps_registered ask config g :
  _optionPrompts (OptionPrompt.resolve ask config g).2 = _optionPrompts g.
Proof.
  rewrite resolve_as_steps.
  destruct (prompt_cases ask config g) as [_ Hg1]. cbv zeta in Hg1.
  destruct (validate_cases config (OptionPrompt.prompt ask config g).2)
    as [H | H]; rewrite H;
    destruct Hg1 as [Hg1 | [Hg1 | Hg1]]; rewrite Hg1; reflexivity.
Qed.

(** X18.  The prompting task stops at the first descriptor whose validation
    fails: the run ends with that error, in the state of that moment, and
    the descriptors registered after it are neither asked for nor
    validated. *)
Theorem prompting_stops_at_first_error
    (ask : Question.t -> value) (g g1 g2 : generator)
    (before after : list Config.t) (config : Config.t) (e : error) :
  _optionPrompts g = before ++ config :: after ->
  Generator.prompting_loop ask before g = (Returns tt, g1) ->
  OptionPrompt.resolve ask config g1 = (Throws e, g2) ->
  Generator.prompting ask g = (Throws e, g2).
Proof.
  intros Hreg Hbefore Hfail.
  cbv beta iota zeta delta [Generator.prompting this mbind method_bind andThen].
  rewrite Hreg, prompting_loop_app, Hbefore. simpl.
  cbv beta iota zeta delta [mbind method_bind andThen].
  rewrite Hfail. reflexivity.
Qed.

Lemma prompting_stops_at_first_error_witness :
  let rejects : value -> value := fun _ => Some (JStr "no such license") in
  let name := descriptor "name" "input" None None None in
  let license := descriptor "license" "input" (Some rejects) None None in
  let author := descriptor "author" "input" None None None in
  let g := {| options := ∅; _optionPrompts := [name; license; author];
              fs := ∅; trace := [] |} in
  exists g2,
    Generator.prompting (answers_with "x") g
    = (Throws (EnvError "no such license"), g2)
    /\ prompted (trace g2) = ["name"; "license"].
Proof.
  intros rejects name license author g.
  set (g1 := (Generator.prompting_loop (answers_with "x") [name] g).2).
  set (g2 := (OptionPrompt.resolve (answers_with "x") license g1).2).
  exists g2. split.
  - apply (prompting_stops_at_first_error (answers_with "x") g g1 g2
             [name] [author] license);
      [reflexivity | vm_compute; reflexivity | vm_compute; reflexivity].
  - vm_compute. reflexivity.
Defined.

Lemma resolve_prompted ask config g :
  exists asked,
    prompted (trace (OptionPrompt.resolve ask config g).2)
    = prompted (trace g) ++ asked
    /\ (asked = [] \/ asked = [Config.name config]).
Proof.
  rewrite resolve_as_steps.
  destruct (prompt_cases ask config g) as [_ Hg1]. cbv zeta in Hg1.
  destruct (validate_cases config (OptionPrompt.prompt ask config g).2)
    as [H | H]; rewrite H;
    destruct Hg1 as [Hg1 | [Hg1 | Hg1]]; rewrite Hg1; simpl;
    rewrite ?prompted_app; simpl; rewrite ?app_nil_r;
    eauto using app_nil_r.
Qed.

Lemma prompting_loop_prompted ask registered : forall g,
  exists asked,
    prompted (trace (Generator.prompting_loop ask registered g).2)
    = prompted (trace g) ++ asked
    /\ asked `sublist_of` map Config.name registered.
Proof.
  induction registered as [|config registered IH]; intros g; simpl.
  - exists []. rewrite app_nil_r. split; [reflexivity | constructor].
  - cbv beta iota zeta delta [mbind method_bind andThen].
    destruct (resolve_prompted ask config g) as (first & Hfirst & Hone).
    destruct (OptionPrompt.resolve ask config g) as [[[]| |] g1];
      cbn [snd] in *.
    + destruct (IH g1) as (rest & Hrest & Hsub).
      exists (first ++ rest). rewrite Hrest, Hfirst, <- app_assoc.
      split; [reflexivity|].
      destruct Hone as [-> | ->]; simpl.
      * apply sublist_cons, Hsub.
      * apply sublist_skip, Hsub.
    + exists first. split; [exact Hfirst|].
      destruct Hone as [-> | ->];
        [apply sublist_nil_l | apply sublist_skip, sublist_nil_l].
    + exists first. split; [exact Hfirst|].
      destruct Hone as [-> | ->];
        [apply sublist_nil_l | apply sublist_skip, sublist_nil_l].
Qed.

(** X19.  The questions of the prompting task come in the order of
    registration: the names it asks for, however the run ends, are a
    subsequence of the registered names. *)
Theorem prompting_asks_in_registration_order
    (ask : Question.t -> value) (g : generator) :
  exists asked,
    prompted (trace (Generator.prompting ask g).2)
    = prompted (trace g) ++ asked
    /\ asked `sublist_of` map Config.name (_optionPrompts g).
Proof.
  cbv beta iota zeta delta [Generator.prompting this mbind method_bind andThen].
  apply prompting_loop_prompted.
Qed.



(** ** The two generator files side by side *)

(** X21.  The older stand-alone file has the same [extendJson], [extendPackage]
    and [extendTsConfig] as lib/generator.js; its [addScripts] is the
    other one with [prepend] turned round. *)
Theorem StandaloneGenerator_differs_in_addScripts
    (destinationPath : string -> string) (path : string)
    (contents scripts : list (string * json))
    (customizer : option customizer) (prepend : value) (g : generator) :
  StandaloneGenerator.extendJson destinationPath path contents customizer g
  = Generator.extendJson destinationPath path contents customizer g
  /\ StandaloneGenerator.extendPackage destinationPath contents customizer g
     = Generator.extendPackage destinationPath contents customizer g
  /\ StandaloneGenerator.extendTsConfig destinationPath contents customizer g
     = Generator.extendTsConfig destinationPath contents customizer g
  /\ StandaloneGenerator.addScripts destinationPath scripts prepend g
     = Generator.addScripts destinationPath scripts
         (Some (JBool (negb (truthy (Some (default (JBool false) prepend))))))
         g.
Proof.
  repeat split.
  unfold StandaloneGenerator.addScripts, Generator.addScripts.
  destruct (truthy (Some (default (JBool false) prepend))); reflexivity.
Qed.
